(** * spec_analyzer_v2: a shallow embedding and its verified properties

    The program is a four-node LangGraph workflow (analyse, draft, human
    review, save) over a shared dictionary state, with a router after the
    review node and a CSV/JSON export in the terminal node.

    Conventions of the embedding.
    - A Python [str] that the program holds in its state or reads as input
      is a Rocq [string]; each [ascii] is read as the code point it numbers
      (0..255).  Such texts with code points above 255 are outside the
      model.  A [str] that [json.loads] returns is a [ustr], a list of code
      points: an escape in an ASCII text can denote any code point of the
      basic plane, a lone surrogate included, and a pair of escapes one
      above it.
    - A Python [dict] with [str] keys and [str] values (the [AgentState]) is
      a [gmap string string]; a missing key is a missing binding.
    - Exceptions are values of type [exn]; a statement that may raise returns
      a [result].  Code that touches the file system threads a [world].
    - [print] calls have no effect that any statement below observes and are
      left out, except where evaluating their argument can raise.
    - Opening a file for writing succeeds: the file system is a finite map
      from paths to contents, and no operating-system error is modelled.
      Writing can fail where the text cannot be encoded: the CSV file is
      opened with [encoding='utf-8'], which encodes every code point but a
      surrogate (U+D800..U+DFFF).  The fallback file is opened the same way
      and the JSON file with the platform's encoding; the texts written to
      them have code points below 256, which UTF-8 encodes and the
      platform's encoding is taken to encode. *)

From Stdlib Require Import String Ascii List Arith NArith Lia Bool.
From stdpp Require Import gmap strings list fin_maps.

Local Open Scope string_scope.
Local Open Scope nat_scope.
Local Open Scope list_scope.

(** ** Python string primitives *)

Module PyStr.

Definition code (c : ascii) : nat := nat_of_ascii c.

(** [str.lower] on one code point below 256: the ASCII capitals and the
    Latin-1 capitals (all of U+00C0..U+00DE but the multiplication sign)
    move up by 32. *)
Definition is_upper (c : ascii) : bool :=
  let n := code c in
  ((65 <=? n) && (n <=? 90)) ||
  ((192 <=? n) && (n <=? 222) && negb (n =? 215)).

Definition lower_char (c : ascii) : ascii :=
  if is_upper c then ascii_of_nat (code c + 32) else c.

Fixpoint lower (s : string) : string :=
  match s with
  | EmptyString => EmptyString
  | String c s' => String (lower_char c) (lower s')
  end.

(** [str.isspace] on one code point below 256. *)
Definition is_space (c : ascii) : bool :=
  let n := code c in
  ((9 <=? n) && (n <=? 13)) || ((28 <=? n) && (n <=? 32)) ||
  (n =? 133) || (n =? 160).

Fixpoint lstrip (s : string) : string :=
  match s with
  | EmptyString => EmptyString
  | String c s' => if is_space c then lstrip s' else s
  end.

Fixpoint rev_acc (s acc : string) : string :=
  match s with
  | EmptyString => acc
  | String c s' => rev_acc s' (String c acc)
  end.

Definition rev (s : string) : string := rev_acc s EmptyString.

Definition rstrip (s : string) : string := rev (lstrip (rev s)).

(** [s.strip()] *)
Definition strip (s : string) : string := rstrip (lstrip s).

(** [s.startswith(p)] *)
Fixpoint startswith (s p : string) : bool :=
  match p, s with
  | EmptyString, _ => true
  | String _ _, EmptyString => false
  | String a p', String b s' =>
      if Ascii.eqb a b then startswith s' p' else false
  end.

(** [s.endswith(p)] *)
Definition endswith (s p : string) : bool := startswith (rev s) (rev p).

Fixpoint drop (n : nat) (s : string) : string :=
  match n, s with
  | O, _ => s
  | S _, EmptyString => EmptyString
  | S n', String _ s' => drop n' s'
  end.

(** [s.split(sep)] for a non-empty [sep]: the pieces between the
    non-overlapping occurrences of [sep], found from the left.  [skip]
    counts the characters of a matched separator still to be passed,
    [cur] holds the current piece reversed. *)
Fixpoint split_go (sep : string) (skip : nat) (cur : string) (s : string)
  : list string :=
  match s with
  | EmptyString => [rev cur]
  | String c s' =>
      match skip with
      | S k => split_go sep k cur s'
      | O =>
          if startswith s sep
          then rev cur :: split_go sep (String.length sep - 1) EmptyString s'
          else split_go sep 0 (String c cur) s'
      end
  end.

Definition split (s sep : string) : list string :=
  split_go sep 0 EmptyString s.

(** [sep.join(parts)] *)
Fixpoint join (sep : string) (parts : list string) : string :=
  match parts with
  | [] => EmptyString
  | [p] => p
  | p :: ps => p +:+ sep +:+ join sep ps
  end.

(** [s.replace(old, new)] for a non-empty [old]. *)
Definition replace (s old new : string) : string :=
  join new (split s old).

(** The text after the first occurrence of [sep] in [s], if any. *)
Fixpoint after_first (s sep : string) : option string :=
  if startswith s sep then Some (drop (String.length sep) s)
  else match s with
       | EmptyString => None
       | String _ s' => after_first s' sep
       end.

(** [s.rsplit(sep, 1)[0]]: the text before the last occurrence of [sep],
    or all of [s] when [sep] does not occur. *)
Definition rsplit1_head (s sep : string) : string :=
  match after_first (rev s) (rev sep) with
  | Some t => rev t
  | None => s
  end.

(** [needle in s] *)
Definition contains (s needle : string) : Prop :=
  exists pre post, s = pre +:+ needle +:+ post.

End PyStr.

(** ** Decoded strings *)

(** A [str] as [json.loads] returns it, code point by code point. *)
Definition ustr : Type := list N.

(** A text of the program, as such a [str]. *)
Definition unicode (s : string) : ustr :=
  map (fun c => N.of_nat (PyStr.code c)) (list_ascii_of_string s).

Fixpoint ustr_eqb (a b : ustr) : bool :=
  match a, b with
  | [], [] => true
  | x :: a', y :: b' => N.eqb x y && ustr_eqb a' b'
  | _, _ => false
  end.

Definition is_surrogate (c : N) : bool :=
  (N.leb 55296 c && N.leb c 57343)%bool.

(** [s.encode('utf-8')] succeeds: it raises [UnicodeEncodeError] exactly
    when [s] holds a surrogate. *)
Definition utf8_encodable (s : ustr) : bool :=
  forallb (fun c => negb (is_surrogate c)) s.

(** ** Exceptions, JSON values, the world *)

(** The exceptions the program can meet.  [GraphInterrupt] is what
    [interrupt] raises to suspend the run; [CollaboratorFailure] stands for
    whatever a model client raises. *)
Inductive exn :=
| KeyError (key : string)
| IndexError
| TypeError
| AttributeError
| ValueError
| JSONDecodeError
| UnicodeEncodeError
| RecursionError
| CollaboratorFailure
| EOFError
| GraphInterrupt (prompt : string).

Inductive result (A : Type) :=
| Ok (a : A)
| Raise (e : exn).
Arguments Ok {A} a.
Arguments Raise {A} e.

(** What [json.loads] returns.  A number is kept as its literal, a string
    as its code points; an object keeps its members in insertion order, and
    [member] reads the first member with a given key (a decoded object has
    each key once). *)
#[warnings="-register-all"]
Inductive json :=
| JNull
| JBool (b : bool)
| JNumber (literal : string)
| JString (s : ustr)
| JArray (items : list json)
| JObject (members : list (ustr * json)).

(** A file is either text or what a [csv] writer was handed, row by row:
    the cells are the Python values passed to [writerow]; their rendering as
    text is the [csv] module's. *)
Inductive file :=
| TextFile (content : string)
| CsvFile (rows : list (list json)).

Inductive llm := Gemini | Azure.

(** Observable actions, oldest first in a [world]'s trace. *)
Inductive event :=
| EvInvoke (model : llm) (prompt : string)
| EvOpen (path : string)
| EvExport (tickets_json : string).

Record world := World {
  files : gmap string file;
  trace : list event
}.

Definition empty_world : world := World ∅ [].

(** ** A state-and-exception monad over the world *)

Definition M (A : Type) : Type := world -> result A * world.

Definition ret {A} (a : A) : M A := fun w => (Ok a, w).

Definition raise {A} (e : exn) : M A := fun w => (Raise e, w).

Definition bind {A B} (m : M A) (k : A -> M B) : M B :=
  fun w =>
    match m w with
    | (Ok a, w') => k a w'
    | (Raise e, w') => (Raise e, w')
    end.

(** [try: body except ...: handler]; the handler sees the world the body
    left behind. *)
Definition try_except {A} (body : M A) (handler : exn -> M A) : M A :=
  fun w =>
    match body w with
    | (Ok a, w') => (Ok a, w')
    | (Raise e, w') => handler e w'
    end.

Definition lift {A} (r : result A) : M A :=
  match r with
  | Ok a => ret a
  | Raise e => raise e
  end.

Declare Scope py_scope.
Delimit Scope py_scope with py.
Notation "'let*' x := m 'in' k" := (bind m (fun x => k))
  (at level 10, x name, m at level 100, k at level 200) : py_scope.
Local Open Scope py_scope.

Definition emit (e : event) : M unit :=
  fun w => (Ok tt, World (files w) (trace w ++ [e])).

(** [with open(path, 'w') as f: f.write(content)] *)
Definition write_text (path content : string) : M unit :=
  fun w => (Ok tt, World (<[path := TextFile content]> (files w))
                         (trace w ++ [EvOpen path])).

(** [open(path, 'w', newline='')]: the file is created or truncated. *)
Definition csv_open (path : string) : M unit :=
  fun w => (Ok tt, World (<[path := CsvFile []]> (files w))
                         (trace w ++ [EvOpen path])).

Definition append_row (row : list json) (f : file) : file :=
  match f with
  | CsvFile rows => CsvFile (rows ++ [row])
  | TextFile c => TextFile c
  end.

(** The text the [csv] writer makes of a cell can be encoded.  A [str] is
    written as it is, between quotes where the dialect asks for them.  Any
    other cell is written as [str(cell)] ([None] as the empty text): ASCII
    for a bool or a number, and for a list or a dict its [repr], in which a
    surrogate of a string stands as an escape. *)
Definition encodable (cell : json) : bool :=
  match cell with
  | JString s => utf8_encodable s
  | _ => true
  end.

(** [csv.writer.writerow(row)] on the file opened at [path] with
    [encoding='utf-8'].  The writer hands the file the whole line in one
    [write], which encodes it: a line that cannot be encoded raises and
    leaves the file as it was. *)
Definition csv_writerow (path : string) (row : list json) : M unit :=
  fun w =>
    if forallb encodable row
    then (Ok tt, World (alter (append_row row) path (files w)) (trace w))
    else (Raise UnicodeEncodeError, w).

(** ** Dictionaries *)

(** [d[key]] on the state. *)
Definition getitem (d : gmap string string) (key : string) : result string :=
  match d !! key with
  | Some v => Ok v
  | None => Raise (KeyError key)
  end.

(** [d.get(key, dflt)] on the state. *)
Definition state_get (d : gmap string string) (key dflt : string) : string :=
  default dflt (d !! key).

(** Truth value of [d.get(key)]: false for a missing key and for the empty
    string. *)
Definition truthy (o : option string) : bool :=
  match o with
  | Some (String _ _) => true
  | _ => false
  end.

(** The value a dict with [str] keys of the program holds under [k]. *)
Fixpoint assoc {V} (k : string) (l : list (string * V)) : option V :=
  match l with
  | [] => None
  | (k', v) :: l' => if String.eqb k k' then Some v else assoc k l'
  end.

(** The value a decoded dict holds under [k]. *)
Fixpoint member (k : ustr) (l : list (ustr * json)) : option json :=
  match l with
  | [] => None
  | (k', v) :: l' => if ustr_eqb k k' then Some v else member k l'
  end.

(** [ticket.get(key, dflt)]: only a [dict] has [get]. *)
Definition json_get (ticket : json) (key : string) (dflt : json) : result json :=
  match ticket with
  | JObject members => Ok (default dflt (member (unicode key) members))
  | _ => Raise AttributeError
  end.

Definition chars (s : ustr) : list ustr := map (fun c => [c]) s.

(** [for ticket in tickets]: a list yields its items, a dict its keys, a
    string its characters; nothing else a JSON document decodes to is
    iterable. *)
Definition py_iter (tickets : json) : result (list json) :=
  match tickets with
  | JArray items => Ok items
  | JObject members => Ok (map (fun kv => JString (fst kv)) members)
  | JString s => Ok (map JString (chars s))
  | _ => Raise TypeError
  end.

(** [xs[i]] on a list. *)
Definition index {A} (xs : list A) (i : nat) : result A :=
  match nth_error xs i with
  | Some x => Ok x
  | None => Raise IndexError
  end.

(** ** External collaborators *)

(** What the program calls but does not define: [json.loads] and the two
    chat models.  [json_loads] raises [JSONDecodeError] on text that is not
    JSON (and may raise something else, as the library does on input nested
    too deeply).  A model's answer may depend on everything that happened
    before the call; [None] stands for a call that raised. *)
Record collaborators := Collaborators {
  json_loads : string -> result json;
  gemini_model : list event -> string -> option string;
  azure_model : list event -> string -> option string
}.

Definition nl : string := String (ascii_of_nat 10) EmptyString.
Definition dq : string := String (ascii_of_nat 34) EmptyString.
Definition q (s : string) : string := dq +:+ s +:+ dq.

(** ** The CSV dictionary writer *)

Module DictWriter.

(** [_dict_to_list] with the defaults [restval=''], [extrasaction='raise']. *)
Definition dict_to_list (fieldnames : list string)
    (rowdict : list (string * json)) : result (list json) :=
  if existsb (fun kv => negb (existsb (String.eqb (fst kv)) fieldnames)) rowdict
  then Raise ValueError
  else Ok (map (fun k => default (JString []) (assoc k rowdict))
               fieldnames).

Definition writerow (path : string) (fieldnames : list string)
    (rowdict : list (string * json)) : M unit :=
  let* row := lift (dict_to_list fieldnames rowdict) in
  csv_writerow path row.

Definition writeheader (path : string) (fieldnames : list string) : M unit :=
  writerow path fieldnames (map (fun k => (k, JString (unicode k))) fieldnames).

End DictWriter.

Section Program.

Variable C : collaborators.

(** [model.invoke([HumanMessage(content=prompt)]).content] *)
Definition invoke (m : llm) (prompt : string) : M string :=
  fun w =>
    let answer := match m with
                  | Gemini => gemini_model C (trace w) prompt
                  | Azure => azure_model C (trace w) prompt
                  end in
    (match answer with
     | Some content => Ok content
     | None => Raise CollaboratorFailure
     end,
     World (files w) (trace w ++ [EvInvoke m prompt])).

(** *** Nodes *)

Definition feedback_context (state : gmap string string) : string :=
  if truthy (state !! "human_feedback")
  then nl +:+ nl +:+
       "IMPORTANT: The user rejected the previous draft. Fix it based on this feedback: "
       +:+ state_get state "human_feedback" EmptyString
  else EmptyString.

Definition analysis_prompt (state : gmap string string) (spec_text : string)
  : string :=
  nl +:+
  "    You are a Senior Solutions Architect. Analyze this requirement text." +:+ nl +:+
  "    Identify gaps and missing criteria." +:+ nl +:+
  "    " +:+ feedback_context state +:+ nl +:+
  "    " +:+ nl +:+
  "    REQUIREMENT TEXT:" +:+ nl +:+
  "    " +:+ spec_text +:+ nl +:+
  "    ".

Definition analyze_requirements_node (state : gmap string string)
  : M (gmap string string) :=
  let* spec_text := lift (getitem state "spec_text") in
  let* response := invoke Gemini (analysis_prompt state spec_text) in
  ret {[ "analysis_gaps" := response ]}.

Definition drafting_prompt (original_spec analysis : string) : string :=
  nl +:+
  "    You are a Technical Product Owner." +:+ nl +:+
  "    Based on the original request and the Architect's gap analysis below," +:+ nl +:+
  "    write 3-5 structured Azure DevOps Work Items." +:+ nl +:+
  nl +:+
  "    Return ONLY a valid JSON array. Each work item must have these exact fields:" +:+ nl +:+
  "    - " +:+ q "Work Item Type" +:+ ": Must be one of: " +:+ q "User Story" +:+ ", "
    +:+ q "Task" +:+ ", " +:+ q "Bug" +:+ ", " +:+ q "Feature" +:+ nl +:+
  "    - " +:+ q "Title" +:+ ": A clear, concise title (max 100 characters)" +:+ nl +:+
  "    - " +:+ q "Description" +:+ ": Detailed description of the work item" +:+ nl +:+
  "    - " +:+ q "Acceptance Criteria" +:+ ": Bulleted list of criteria (use "
    +:+ q "- " +:+ " for bullets)" +:+ nl +:+
  "    - " +:+ q "Priority" +:+ ": Must be one of: " +:+ q "1" +:+ ", " +:+ q "2"
    +:+ ", " +:+ q "3" +:+ ", " +:+ q "4" +:+ nl +:+
  nl +:+
  "    ORIGINAL REQUEST:" +:+ nl +:+
  "    " +:+ original_spec +:+ nl +:+
  nl +:+
  "    ARCHITECT'S ANALYSIS:" +:+ nl +:+
  "    " +:+ analysis +:+ nl +:+
  nl +:+
  "    Return ONLY the JSON array, no additional text or markdown code blocks." +:+ nl +:+
  "    ".

Definition draft_tickets_node (state : gmap string string)
  : M (gmap string string) :=
  let* analysis := lift (getitem state "analysis_gaps") in
  let* original_spec := lift (getitem state "spec_text") in
  let* response := invoke Azure (drafting_prompt original_spec analysis) in
  ret {[ "ado_tickets" := response ]}.

(** [interrupt(value)]: raises [GraphInterrupt] unless the run is being
    resumed, in which case it returns the resume value. *)
Definition interrupt (resume : option string) (value : string) : M string :=
  match resume with
  | Some v => ret v
  | None => raise (GraphInterrupt value)
  end.

Definition review_prompt : string :=
  "Please review the tickets. Type 'approve' to save, or type your feedback to fix them.".

Definition human_review_node (resume : option string)
    (state : gmap string string) : M (gmap string string) :=
  let* _ := lift (getitem state "ado_tickets") in
  let* review_decision := interrupt resume review_prompt in
  ret {[ "human_feedback" := review_decision ]}.

(** *** Export *)

Definition fieldnames : list string :=
  ["Work Item Type"; "Title"; "Description"; "Acceptance Criteria"; "Priority"].

Definition fence_json : string := "```json".
Definition fence : string := "```".

(** Lines 128-135: the clean-up of the text before it is parsed.  It
    touches no file; indexing a list is the only step that can raise. *)
Definition clean (tickets_json : string) : result string :=
  let c0 := PyStr.strip tickets_json in
  match (if PyStr.startswith c0 fence_json
         then index (PyStr.split c0 fence_json) 1 else Ok c0) with
  | Raise e => Raise e
  | Ok c1 =>
      match (if PyStr.startswith c1 fence
             then index (PyStr.split c1 fence) 1 else Ok c1) with
      | Raise e => Raise e
      | Ok c2 =>
          let c3 := if PyStr.endswith c2 fence
                    then PyStr.rsplit1_head c2 fence else c2 in
          Ok (PyStr.strip c3)
      end
  end.

(** The row built from one ticket (lines 155-161). *)
Definition ticket_row (ticket : json) : M (list (string * json)) :=
  let* wit := lift (json_get ticket "Work Item Type"
                             (JString (unicode "User Story"))) in
  let* title := lift (json_get ticket "Title" (JString [])) in
  let* descr := lift (json_get ticket "Description" (JString [])) in
  let* ac := lift (json_get ticket "Acceptance Criteria" (JString [])) in
  let* prio := lift (json_get ticket "Priority" (JString (unicode "2"))) in
  ret [("Work Item Type", wit); ("Title", title); ("Description", descr);
       ("Acceptance Criteria", ac); ("Priority", prio)].

Fixpoint write_tickets (path : string) (tickets : list json) : M unit :=
  match tickets with
  | [] => ret tt
  | ticket :: rest =>
      let* rowdict := ticket_row ticket in
      let* _ := DictWriter.writerow path fieldnames rowdict in
      write_tickets path rest
  end.

Definition fallback_file : string := "ado_work_items_raw.txt".

(** The [try] block of [export_to_ado_csv] (lines 127-165). *)
Definition export_try (tickets_json output_file : string)
  : M (option string) :=
  let* cleaned_json := lift (clean tickets_json) in
  let* tickets := lift (json_loads C cleaned_json) in
  let* _ := csv_open output_file in
  let* _ := DictWriter.writeheader output_file fieldnames in
  let* items := lift (py_iter tickets) in
  let* _ := write_tickets output_file items in
  ret (Some output_file).

(** Its two handlers (lines 167-178): [except json.JSONDecodeError] and
    [except Exception]. *)
Definition export_except (tickets_json : string) (e : exn)
  : M (option string) :=
  match e with
  | JSONDecodeError =>
      let* _ := write_text fallback_file tickets_json in
      ret None
  | _ => ret None
  end.

(** [export_to_ado_csv]: [Some output_file] on success, [None] otherwise.
    The [EvExport] event marks entry into the function. *)
Definition export_to_ado_csv (tickets_json output_file : string)
  : M (option string) :=
  let* _ := emit (EvExport tickets_json) in
  try_except (export_try tickets_json output_file)
             (export_except tickets_json).

Definition default_output_file : string := "ado_work_items.csv".
Definition json_filename : string := "ado_work_items.json".

Definition save_to_file_node (state : gmap string string)
  : M (gmap string string) :=
  let* drafted := lift (getitem state "ado_tickets") in
  let clean_json :=
    PyStr.replace (PyStr.replace drafted fence_json EmptyString)
                  fence EmptyString in
  let* _ := write_text json_filename clean_json in
  let* drafted' := lift (getitem state "ado_tickets") in
  let* _ := export_to_ado_csv drafted' default_output_file in
  ret ∅.

End Program.

(** ** Routing and the graph *)

Inductive node := analyze_spec | create_tickets | human_review | save_tickets.

Definition router (state : gmap string string) : node :=
  let decision := PyStr.lower (state_get state "human_feedback" EmptyString) in
  if String.eqb decision "approve" then save_tickets else analyze_spec.

Inductive target := Goto (n : node) | END.

Definition entry_point : node := analyze_spec.

(** [add_edge] and [add_conditional_edges], lines 231-240. *)
Definition successor (n : node) (state : gmap string string) : target :=
  match n with
  | analyze_spec => Goto create_tickets
  | create_tickets => Goto human_review
  | human_review => Goto (router state)
  | save_tickets => END
  end.

(** [add_node], lines 225-228.  Only the review node reads a resume value. *)
Definition run_node (C : collaborators) (n : node) (resume : option string)
    (state : gmap string string) : M (gmap string string) :=
  match n with
  | analyze_spec => analyze_requirements_node C state
  | create_tickets => draft_tickets_node C state
  | human_review => human_review_node resume state
  | save_tickets => save_to_file_node C state
  end.

(** ** A reference JSON decoder

    The theorems below hold for any [json_loads].  To run the program on
    concrete texts, this module gives a decoder for the JSON grammar as
    [json.loads] reads it: white space is space, tab, line feed and carriage
    return; strings reject raw control characters; [NaN], [Infinity] and
    [-Infinity] are numbers; a repeated key keeps its first position and
    its last value.  A [\u] escape gives the code point it numbers; the
    escape of a high surrogate directly followed by the escape of a low one
    gives the code point of the pair, and a surrogate without its partner
    stays in the string. *)
Module JsonRef.

Definition is_ws (c : ascii) : bool :=
  let n := PyStr.code c in (n =? 32) || (n =? 9) || (n =? 10) || (n =? 13).

Definition is_digit (c : ascii) : bool :=
  let n := PyStr.code c in (48 <=? n) && (n <=? 57).

Fixpoint skip_ws (s : string) : string :=
  match s with
  | String c s' => if is_ws c then skip_ws s' else s
  | EmptyString => s
  end.

(** The longest prefix of digits, and the rest. *)
Fixpoint digits (s : string) : string * string :=
  match s with
  | String c s' =>
      if is_digit c then let (d, r) := digits s' in (String c d, r)
      else (EmptyString, s)
  | EmptyString => (EmptyString, s)
  end.

Definition hex_value (c : ascii) : option N :=
  let n := PyStr.code c in
  if (48 <=? n) && (n <=? 57) then Some (N.of_nat (n - 48))
  else if (65 <=? n) && (n <=? 70) then Some (N.of_nat (n - 55))
  else if (97 <=? n) && (n <=? 102) then Some (N.of_nat (n - 87))
  else None.

Definition hex4 (s : string) : option (N * string) :=
  match s with
  | String a (String b (String c (String d r))) =>
      match hex_value a, hex_value b, hex_value c, hex_value d with
      | Some x, Some y, Some z, Some t =>
          Some ((((x * 16 + y) * 16 + z) * 16 + t)%N, r)
      | _, _, _, _ => None
      end
  | _ => None
  end.

Definition escape (c : ascii) : option N :=
  let n := PyStr.code c in
  if n =? 34 then Some 34%N
  else if n =? 92 then Some 92%N
  else if n =? 47 then Some 47%N
  else if n =? 98 then Some 8%N
  else if n =? 102 then Some 12%N
  else if n =? 110 then Some 10%N
  else if n =? 114 then Some 13%N
  else if n =? 116 then Some 9%N
  else None.

Definition is_high_surrogate (u : N) : bool :=
  (N.leb 55296 u && N.leb u 56319)%bool.

Definition is_low_surrogate (u : N) : bool :=
  (N.leb 56320 u && N.leb u 57343)%bool.

(** The code point a high and a low surrogate stand for together. *)
Definition join_surrogates (hi lo : N) : N :=
  (65536 + (hi - 55296) * 1024 + (lo - 56320))%N.

(** The low surrogate whose escape the text begins with, if any. *)
Definition low_escape (s : string) : option N :=
  match s with
  | String b (String u r) =>
      if (PyStr.code b =? 92) && (PyStr.code u =? 117) then
        match hex4 r with
        | Some (lo, _) => if is_low_surrogate lo then Some lo else None
        | None => None
        end
      else None
  | _ => None
  end.

(** The body of a string literal, after its opening quote; [acc] holds the
    code points read so far, last first.  [string_body_skip n] passes over
    [n + 1] characters of an escape already read. *)
Fixpoint string_body (s : string) (acc : ustr) : option (ustr * string) :=
  match s with
  | EmptyString => None
  | String c s' =>
      let n := PyStr.code c in
      if n =? 34 then Some (List.rev acc, s')
      else if n <? 32 then None
      else if n =? 92 then
        match s' with
        | String e s'' =>
            if PyStr.code e =? 117 then
              match hex4 s'' with
              | Some (u, r) =>
                  if is_high_surrogate u then
                    match low_escape r with
                    | Some lo =>
                        string_body_skip 9 s'' (join_surrogates u lo :: acc)
                    | None => string_body_skip 3 s'' (u :: acc)
                    end
                  else string_body_skip 3 s'' (u :: acc)
              | None => None
              end
            else
              match escape e with
              | Some x => string_body s'' (x :: acc)
              | None => None
              end
        | EmptyString => None
        end
      else string_body s' (N.of_nat n :: acc)
  end
with string_body_skip (n : nat) (s : string) (acc : ustr)
  : option (ustr * string) :=
  match s with
  | String _ r =>
      match n with
      | O => string_body r acc
      | S m => string_body_skip m r acc
      end
  | EmptyString => None
  end.

Definition is_char (n : nat) (c : ascii) : bool := PyStr.code c =? n.

(** A number literal: an optional minus, then 0 or a digit string without
    leading zero, then optionally a point with digits, then optionally an
    exponent (e or E, optional sign, digits). *)
Definition number (s : string) : option (string * string) :=
  let (sign, s1) :=
    match s with
    | String c r => if is_char 45 c then ("-", r) else (EmptyString, s)
    | EmptyString => (EmptyString, s)
    end in
  let int_part :=
    match s1 with
    | String c r =>
        if is_char 48 c then Some ("0", r)
        else if is_digit c then Some (digits s1)
        else None
    | EmptyString => None
    end in
  match int_part with
  | None => None
  | Some (i, s2) =>
      let (frac, s3) :=
        match s2 with
        | String c r =>
            if is_char 46 c then
              match digits r with
              | (EmptyString, _) => (EmptyString, s2)
              | (d, r') => ("." +:+ d, r')
              end
            else (EmptyString, s2)
        | EmptyString => (EmptyString, s2)
        end in
      let (ex, s4) :=
        match s3 with
        | String c r =>
            if is_char 101 c || is_char 69 c then
              let (sg, r1) :=
                match r with
                | String c' r' =>
                    if is_char 43 c' || is_char 45 c'
                    then (String c' EmptyString, r') else (EmptyString, r)
                | EmptyString => (EmptyString, r)
                end in
              match digits r1 with
              | (EmptyString, _) => (EmptyString, s3)
              | (d, r') => (String c sg +:+ d, r')
              end
            else (EmptyString, s3)
        | EmptyString => (EmptyString, s3)
        end in
      Some (sign +:+ i +:+ frac +:+ ex, s4)
  end.

Definition keyword (s : string) : option (json * string) :=
  if PyStr.startswith s "null" then Some (JNull, PyStr.drop 4 s)
  else if PyStr.startswith s "true" then Some (JBool true, PyStr.drop 4 s)
  else if PyStr.startswith s "false" then Some (JBool false, PyStr.drop 5 s)
  else if PyStr.startswith s "NaN" then Some (JNumber "NaN", PyStr.drop 3 s)
  else if PyStr.startswith s "Infinity"
       then Some (JNumber "Infinity", PyStr.drop 8 s)
  else if PyStr.startswith s "-Infinity"
       then Some (JNumber "-Infinity", PyStr.drop 9 s)
  else None.

(** [d[k] = v] on a dict kept as an association list. *)
Fixpoint dict_set (k : ustr) (v : json) (d : list (ustr * json))
  : list (ustr * json) :=
  match d with
  | [] => [(k, v)]
  | (k', v') :: d' =>
      if ustr_eqb k k' then (k, v) :: d' else (k', v') :: dict_set k v d'
  end.

(** [value] reads one value; [elements] and [members] read the rest of an
    array or object once its first item is due.  [fuel] bounds the number
    of calls; the length of the text is enough. *)
Fixpoint value (fuel : nat) (s : string) : option (json * string) :=
  match fuel with
  | O => None
  | S f =>
      match s with
      | EmptyString => None
      | String c r =>
          if is_char 34 c then
            match string_body r [] with
            | Some (str, r') => Some (JString str, r')
            | None => None
            end
          else if is_char 91 c then
            match skip_ws r with
            | String c' r' =>
                if is_char 93 c' then Some (JArray [], r')
                else elements f (skip_ws r) []
            | EmptyString => None
            end
          else if is_char 123 c then
            match skip_ws r with
            | String c' r' =>
                if is_char 125 c' then Some (JObject [], r')
                else members f (skip_ws r) []
            | EmptyString => None
            end
          else
            match number s with
            | Some (lit, r') => Some (JNumber lit, r')
            | None => keyword s
            end
      end
  end
with elements (fuel : nat) (s : string) (acc : list json)
  : option (json * string) :=
  match fuel with
  | O => None
  | S f =>
      match value f s with
      | Some (v, r) =>
          match skip_ws r with
          | String c r' =>
              if is_char 93 c then Some (JArray (acc ++ [v]), r')
              else if is_char 44 c then elements f (skip_ws r') (acc ++ [v])
              else None
          | EmptyString => None
          end
      | None => None
      end
  end
with members (fuel : nat) (s : string) (acc : list (ustr * json))
  : option (json * string) :=
  match fuel with
  | O => None
  | S f =>
      match s with
      | String c r =>
          if is_char 34 c then
            match string_body r [] with
            | Some (key, r1) =>
                match skip_ws r1 with
                | String c1 r2 =>
                    if is_char 58 c1 then
                      match value f (skip_ws r2) with
                      | Some (v, r3) =>
                          match skip_ws r3 with
                          | String c3 r4 =>
                              if is_char 125 c3
                              then Some (JObject (dict_set key v acc), r4)
                              else if is_char 44 c3
                              then members f (skip_ws r4) (dict_set key v acc)
                              else None
                          | EmptyString => None
                          end
                      | None => None
                      end
                    else None
                | EmptyString => None
                end
            | None => None
            end
          else None
      | EmptyString => None
      end
  end.

(** [json.loads(s)] *)
Definition loads (s : string) : result json :=
  match value (2 * String.length s + 2) (skip_ws s) with
  | Some (v, r) =>
      match skip_ws r with
      | EmptyString => Ok v
      | String _ _ => Raise JSONDecodeError
      end
  | None => Raise JSONDecodeError
  end.

(** A helper to write JSON texts legibly: every apostrophe of [s] stands
    for a double quote. *)
Fixpoint text (s : string) : string :=
  match s with
  | EmptyString => EmptyString
  | String c s' => String (if is_char 39 c then ascii_of_nat 34 else c) (text s')
  end.

End JsonRef.

(** ** The executor

    The program hands its graph to a library ([StateGraph.compile],
    [app.invoke], [app.get_state]); the library's code is not part of the
    program.  The definitions of this section follow the specification's
    description of that executor (state container, run, checkpoint, driving
    loop, start / resume / getStatus). *)

(** Modelled from the spec: the state container's [merge] (section 4.1).
    Every key of the partial update replaces the current value, every other
    key is carried over; [AgentState] declares no reducer. *)
Definition merge (current partialUpdate : gmap string string)
  : gmap string string :=
  partialUpdate ∪ current.

(** Modelled from the spec: the life cycle of a run (section 4.4). *)
Inductive run_status := CREATED | RUNNING | PAUSED | TERMINATED.

(** Modelled from the spec: a run (section 3) holds the current state, the
    step it is paused at, if any, and a step counter. *)
Record Run := mkRun {
  run_state : gmap string string;
  status : run_status;
  paused_step : option node;
  step_counter : nat
}.

(** Modelled from the spec: the checkpoint (section 3) is the projection of
    a paused run. *)
Record Checkpoint := mkCheckpoint {
  cp_run_id : string;
  cp_state : gmap string string;
  cp_paused_step : node
}.

Definition checkpoint_of (run_id : string) (r : Run) : option Checkpoint :=
  match paused_step r with
  | Some n => Some (mkCheckpoint run_id (run_state r) n)
  | None => None
  end.

(** Modelled from the spec: the error kinds of section 7 that the executor
    reports. *)
Inductive exec_error :=
| RunExists
| NoSuchRun
| NotPaused
| StepFailure (n : node) (e : exn)
| RecursionLimit.

Inductive reply :=
| Reply (state : gmap string string) (st : run_status)
| Failure (err : exec_error).

(** How one call of the driving loop ended. *)
Inductive halt :=
| Suspended (n : node)
| Completed
| Crashed (n : node) (e : exn)
| Exhausted.

Section Executor.

Variable C : collaborators.

(** Modelled from the spec: the driving loop (section 4.5).  Each
    iteration invokes one step, merges its update, and follows the fixed
    edge or the router; a suspend signal or a failure leaves the state as
    it was before the step and returns.  The resume value reaches only
    the step the run was paused at.  [fuel] is the library's bound on the
    number of steps of one call. *)
Fixpoint drive (fuel : nat) (n : node) (resume : option string)
    (state : gmap string string) (count : nat) (w : world)
  : halt * gmap string string * nat * world :=
  match fuel with
  | O => (Exhausted, state, count, w)
  | S fuel' =>
      match run_node C n resume state w with
      | (Ok update, w') =>
          let state' := merge state update in
          match successor n state' with
          | END => (Completed, state', S count, w')
          | Goto n' => drive fuel' n' None state' (S count) w'
          end
      | (Raise (GraphInterrupt _), w') => (Suspended n, state, count, w')
      | (Raise e, w') => (Crashed n e, state, count, w')
      end
  end.

Definition recursion_limit : nat := 25.

Definition settle (h : halt) (state : gmap string string) (count : nat)
  : Run * reply :=
  match h with
  | Suspended n => (mkRun state PAUSED (Some n) count, Reply state PAUSED)
  | Completed => (mkRun state TERMINATED None count, Reply state TERMINATED)
  | Crashed n e => (mkRun state RUNNING None count, Failure (StepFailure n e))
  | Exhausted => (mkRun state RUNNING None count, Failure RecursionLimit)
  end.

(** Modelled from the spec: [start(runId, initialState)] (section 4.5). *)
Definition start (run_id : string) (initial : gmap string string)
    (runs : gmap string Run) (w : world) : reply * gmap string Run * world :=
  match runs !! run_id with
  | Some _ => (Failure RunExists, runs, w)
  | None =>
      let '(h, state, count, w') :=
        drive recursion_limit entry_point None initial 0 w in
      let (r, answer) := settle h state count in
      (answer, <[run_id := r]> runs, w')
  end.

(** Modelled from the spec: [resume(runId, value)] (section 4.5). *)
Definition resume (run_id value : string)
    (runs : gmap string Run) (w : world) : reply * gmap string Run * world :=
  match runs !! run_id with
  | None => (Failure NoSuchRun, runs, w)
  | Some r =>
      match status r, checkpoint_of run_id r with
      | PAUSED, Some cp =>
          let '(h, state, count, w') :=
            drive recursion_limit (cp_paused_step cp) (Some value)
                  (cp_state cp) (step_counter r) w in
          let (r', answer) := settle h state count in
          (answer, <[run_id := r']> runs, w')
      | _, _ => (Failure NotPaused, runs, w)
      end
  end.

(** Modelled from the spec: [getStatus(runId)] (section 4.5). *)
Definition getStatus (run_id : string) (runs : gmap string Run)
  : option (gmap string string * run_status) :=
  match runs !! run_id with
  | Some r => Some (run_state r, status r)
  | None => None
  end.

(** [app.get_state(config).next]: the steps due next, empty unless the run
    is paused. *)
Definition snapshot_next (run_id : string) (runs : gmap string Run)
  : list node :=
  match runs !! run_id with
  | Some r => match status r, paused_step r with
              | PAUSED, Some n => [n]
              | _, _ => []
              end
  | None => []
  end.

(** *** The main program (lines 247-278)

    [inputs] is what the user will type, one line per prompt. *)
Definition thread_id : string := "ticket-session-1".
Definition initial_spec : string := "Build a login page for the mobile app.".

Fixpoint resume_loop (inputs : list string) (runs : gmap string Run)
    (w : world) : result unit * gmap string Run * world :=
  match snapshot_next thread_id runs with
  | [] => (Ok tt, runs, w)
  | _ :: _ =>
      match inputs with
      | [] => (Raise EOFError, runs, w)
      | user_input :: rest =>
          match resume thread_id user_input runs w with
          | (Failure (StepFailure _ e), runs', w') => (Raise e, runs', w')
          | (Failure _, runs', w') => (Raise ValueError, runs', w')
          | (Reply _ _, runs', w') => resume_loop rest runs' w'
          end
      end
  end.

Definition main (inputs : list string)
  : result unit * gmap string Run * world :=
  match start thread_id {[ "spec_text" := initial_spec ]} ∅ empty_world with
  | (Failure (StepFailure _ e), runs, w) => (Raise e, runs, w)
  | (Failure _, runs, w) => (Raise ValueError, runs, w)
  | (Reply _ _, runs, w) => resume_loop inputs runs w
  end.

End Executor.

(** * Vocabulary of the statements *)

(** Two characters are the same letter when they are equal or one is the
    capital of the other. *)
Definition same_letter (a b : ascii) : Prop :=
  a = b \/
  (PyStr.is_upper a = true /\ PyStr.code b = PyStr.code a + 32) \/
  (PyStr.is_upper b = true /\ PyStr.code a = PyStr.code b + 32).

(** Case-insensitive equality of strings, letter by letter. *)
Inductive caseless_eq : string -> string -> Prop :=
| caseless_nil : caseless_eq EmptyString EmptyString
| caseless_cons a b s t :
    same_letter a b -> caseless_eq s t ->
    caseless_eq (String a s) (String b t).

Fixpoint no_upper (s : string) : bool :=
  match s with
  | EmptyString => true
  | String c s' => negb (PyStr.is_upper c) && no_upper s'
  end.

(** The value the human supplied, as the router finds it in the state. *)
Definition human_value (state : gmap string string) : string :=
  state_get state "human_feedback" EmptyString.

(** Sequences of step executions: each executed step returns an update,
    which is merged into the state. *)
Inductive steps (C : collaborators)
  : gmap string string -> gmap string string -> Prop :=
| steps_done s : steps C s s
| steps_next s u s'' n resume w w' :
    run_node C n resume s w = (Ok u, w') ->
    steps C (merge s u) s'' ->
    steps C s s''.

(** A record is a JSON object. *)
Definition is_record (ticket : json) : bool :=
  match ticket with
  | JObject _ => true
  | _ => false
  end.

(** The value of field [key] of a record, or [dflt] when the record lacks
    the field. *)
Definition field (members : list (ustr * json)) (key : string) (dflt : json)
  : json :=
  match member (unicode key) members with
  | Some v => v
  | None => dflt
  end.

(** The cells a record is expected to contribute, in the order of the
    header. *)
Definition cells_of (ticket : json) : list json :=
  match ticket with
  | JObject members =>
      [field members "Work Item Type" (JString (unicode "User Story"));
       field members "Title" (JString []);
       field members "Description" (JString []);
       field members "Acceptance Criteria" (JString []);
       field members "Priority" (JString (unicode "2"))]
  | _ => []
  end.

Definition header_row : list json :=
  map (fun k => JString (unicode k)) fieldnames.

(** Every cell of the ticket's row can be encoded: no field that is a
    string holds a surrogate. *)
Definition row_encodable (ticket : json) : bool :=
  forallb encodable (cells_of ticket).

(** The text decodes, after the clean-up, to a sequence of records. *)
Definition decodes_to_records (C : collaborators) (tickets_json : string)
    (items : list json) : Prop :=
  exists cleaned,
    clean tickets_json = Ok cleaned /\
    json_loads C cleaned = Ok (JArray items) /\
    forallb is_record items = true.

(** A well-formed record has the five fields, each a string, and no other
    field. *)
Definition well_formed_record (ticket : json) : bool :=
  match ticket with
  | JObject members =>
      forallb (fun k => match member (unicode k) members with
                        | Some (JString _) => true
                        | _ => false
                        end) fieldnames &&
      forallb (fun kv => existsb (fun k => ustr_eqb (fst kv) (unicode k))
                                 fieldnames) members
  | _ => false
  end.

Definition is_export (e : event) : bool :=
  match e with
  | EvExport _ => true
  | _ => false
  end.

(** The number of calls of [export_to_ado_csv] among some events. *)
Fixpoint count_exports (evs : list event) : nat :=
  match evs with
  | [] => 0
  | e :: evs' => (if is_export e then 1 else 0) + count_exports evs'
  end.

(** *** Concrete collaborators, to run the program on examples *)

Definition three_tickets : string :=
  JsonRef.text
    "[{'Work Item Type': 'User Story', 'Title': 'Login form', 'Description': 'Email and password fields', 'Acceptance Criteria': '- form renders', 'Priority': '1'},
      {'Work Item Type': 'Task', 'Title': 'Session token', 'Description': 'Issue a token on success', 'Acceptance Criteria': '- token expires', 'Priority': '2'},
      {'Work Item Type': 'Bug', 'Title': 'Lockout', 'Description': 'Lock after five failures', 'Acceptance Criteria': '- account locks', 'Priority': '3'}]".

Definition ref_collaborators : collaborators :=
  Collaborators JsonRef.loads
                (fun _ _ => Some "No error states are described.")
                (fun _ _ => Some three_tickets).

(** The world once the CSV file is opened and its header written. *)
Definition opened (output_file : string) (w : world) : world :=
  World (<[output_file := CsvFile [header_row]]> (files w))
        (trace w ++ [EvOpen output_file]).

(** Cell [j] of [row] renders field [key] of a record: the record's value
    when it has the field, [dflt] when it lacks it. *)
Definition cell_rule (members : list (ustr * json)) (row : list json)
    (j : nat) (key : string) (dflt : json) : Prop :=
  (member (unicode key) members = None -> row !! j = Some dflt) /\
  (forall v, member (unicode key) members = Some v -> row !! j = Some v).

(** The world after an export that fell back to the raw text. *)
Definition fell_back (tickets_json : string) (w : world) : world :=
  World (<[fallback_file := TextFile tickets_json]> (files w))
        (trace w ++ [EvExport tickets_json; EvOpen fallback_file]).

(** The world after an export that wrote [rows] under the header. *)
Definition exported (tickets_json output_file : string)
    (rows : list (list json)) (w : world) : world :=
  World (<[output_file := CsvFile (header_row :: rows)]> (files w))
        (trace w ++ [EvExport tickets_json; EvOpen output_file]).

(** [needle] occurs in [s], as a computation. *)
Fixpoint occurs (needle s : string) : bool :=
  PyStr.startswith s needle ||
  match s with
  | EmptyString => false
  | String _ s' => occurs needle s'
  end.

Definition backtick : ascii := "`"%char.

(** The number of backticks [s] begins with. *)
Fixpoint lead (s : string) : nat :=
  match s with
  | EmptyString => 0
  | String c s' => if Ascii.eqb backtick c then S (lead s') else 0
  end.

(** The pieces of a split, put together again with nothing in between: what
    [replace(sep, '')] returns, from an arbitrary state of the scan. *)
Definition joined (sep : string) (skip : nat) (cur s : string) : string :=
  PyStr.join EmptyString (PyStr.split_go sep skip cur s).

(** The drafted text as the terminal step writes it to the JSON file. *)
Definition fences_removed (drafted : string) : string :=
  PyStr.replace (PyStr.replace drafted "```json" EmptyString) "```" EmptyString.

(** The world once the terminal step has written the JSON file. *)
Definition json_written (drafted : string) (w : world) : world :=
  World (<[json_filename := TextFile (fences_removed drafted)]> (files w))
        (trace w ++ [EvOpen json_filename]).

(** The state once the review step has returned the human's value. *)
Definition reviewed (state : gmap string string) (value : string)
  : gmap string string :=
  merge state {[ "human_feedback" := value ]}.

(** The runs and worlds the executor can bring about, from no run at all,
    by calls of [start] and [resume]. *)
Inductive reachable (C : collaborators) : gmap string Run -> world -> Prop :=
| reach_init w : reachable C ∅ w
| reach_start runs w run_id initial a runs' w' :
    reachable C runs w ->
    start C run_id initial runs w = (a, runs', w') ->
    reachable C runs' w'
| reach_resume runs w run_id value a runs' w' :
    reachable C runs w ->
    resume C run_id value runs w = (a, runs', w') ->
    reachable C runs' w'.

(** What holds of every run the executor has paused: it is paused at the
    review step, with a draft and the input text in its state. *)
Definition paused_at_review (r : Run) : Prop :=
  status r = PAUSED ->
  paused_step r = Some human_review /\
  is_Some (run_state r !! "ado_tickets") /\
  is_Some (run_state r !! "spec_text").

(** A run paused at the review step, started on the input text "X". *)
Definition paused_example : reply * gmap string Run * world :=
  start ref_collaborators "run-1" {[ "spec_text" := "X" ]} ∅ empty_world.

Definition paused_runs : gmap string Run := snd (fst paused_example).
Definition paused_world : world := snd paused_example.

Definition paused_state : gmap string string :=
  {[ "spec_text" := "X";
     "analysis_gaps" := "No error states are described.";
     "ado_tickets" := three_tickets ]}.

Definition paused_run : Run := mkRun paused_state PAUSED (Some human_review) 2.

(** The same run once resumed with "approve". *)
Definition finished_example : reply * gmap string Run * world :=
  resume ref_collaborators "run-1" "approve" paused_runs paused_world.

Definition finished_runs : gmap string Run := snd (fst finished_example).
Definition finished_world : world := snd finished_example.

Definition finished_run : Run :=
  mkRun (reviewed paused_state "approve") TERMINATED None 4.

(** A decoded string that holds the text [s]. *)
Definition jstr (s : string) : json := JString (unicode s).

(** What [three_tickets] decodes to. *)
Definition three_records : list json :=
  [JObject [(unicode "Work Item Type", jstr "User Story");
            (unicode "Title", jstr "Login form");
            (unicode "Description", jstr "Email and password fields");
            (unicode "Acceptance Criteria", jstr "- form renders");
            (unicode "Priority", jstr "1")];
   JObject [(unicode "Work Item Type", jstr "Task");
            (unicode "Title", jstr "Session token");
            (unicode "Description", jstr "Issue a token on success");
            (unicode "Acceptance Criteria", jstr "- token expires");
            (unicode "Priority", jstr "2")];
   JObject [(unicode "Work Item Type", jstr "Bug");
            (unicode "Title", jstr "Lockout");
            (unicode "Description", jstr "Lock after five failures");
            (unicode "Acceptance Criteria", jstr "- account locks");
            (unicode "Priority", jstr "3")]].

(** Records that lack fields: the first has a title only, the second
    nothing. *)
Definition sparse_tickets : string :=
  JsonRef.text "[{'Title': 'Only a title'}, {}]".

Definition sparse_records : list json :=
  [JObject [(unicode "Title", jstr "Only a title")]; JObject []].

(** Three complete records in an ASCII text, the second with the escape of
    a lone surrogate in its title, and what the text decodes to. *)
Definition surrogate_tickets : string :=
  JsonRef.text
    "[{'Work Item Type': 'User Story', 'Title': 'Login form', 'Description': 'Email and password fields', 'Acceptance Criteria': '- form renders', 'Priority': '1'},
      {'Work Item Type': 'Task', 'Title': 'bad \ud800 surrogate', 'Description': 'Issue a token on success', 'Acceptance Criteria': '- token expires', 'Priority': '2'},
      {'Work Item Type': 'Bug', 'Title': 'Lockout', 'Description': 'Lock after five failures', 'Acceptance Criteria': '- account locks', 'Priority': '3'}]".

Definition surrogate_records : list json :=
  [JObject [(unicode "Work Item Type", jstr "User Story");
            (unicode "Title", jstr "Login form");
            (unicode "Description", jstr "Email and password fields");
            (unicode "Acceptance Criteria", jstr "- form renders");
            (unicode "Priority", jstr "1")];
   JObject [(unicode "Work Item Type", jstr "Task");
            (unicode "Title",
             JString (unicode "bad " ++ [55296%N] ++ unicode " surrogate"));
            (unicode "Description", jstr "Issue a token on success");
            (unicode "Acceptance Criteria", jstr "- token expires");
            (unicode "Priority", jstr "2")];
   JObject [(unicode "Work Item Type", jstr "Bug");
            (unicode "Title", jstr "Lockout");
            (unicode "Description", jstr "Lock after five failures");
            (unicode "Acceptance Criteria", jstr "- account locks");
            (unicode "Priority", jstr "3")]].

(** One record that has a title only, the escape of a lone surrogate. *)
Definition surrogate_title : string := JsonRef.text "[{'Title': '\ud800'}]".

Definition surrogate_title_record : list (ustr * json) :=
  [(unicode "Title", JString [55296%N])].

(** A draft wrapped in a code fence, and a text that is not JSON. *)
Definition fenced_draft : string := "```json[]```".
Definition prose : string := "Here are the tickets you asked for.".

(** *** Vocabulary of the further properties *)

(** The value makes the router choose the terminal step. *)
Definition approves (value : string) : bool :=
  String.eqb (PyStr.lower value) "approve".

(** A ticket the export can write: a dict whose row can be encoded. *)
Definition writable (ticket : json) : bool :=
  is_record ticket && row_encodable ticket.

(** The tickets before the first one that cannot be written. *)
Fixpoint written_prefix (items : list json) : list json :=
  match items with
  | [] => []
  | ticket :: rest =>
      if writable ticket then ticket :: written_prefix rest else []
  end.

(** A decoded value that is not a list.  Iterating it yields nothing when
    it is the empty dict or the empty string. *)
Definition not_a_list (v : json) : bool :=
  match v with
  | JArray _ => false
  | _ => true
  end.

Definition yields_nothing (v : json) : bool :=
  match v with
  | JObject [] => true
  | JString [] => true
  | _ => false
  end.

(** The number of calls of a model among some events. *)
Fixpoint count_invokes (m : llm) (evs : list event) : nat :=
  match evs with
  | [] => 0
  | EvInvoke Gemini _ :: evs' =>
      (match m with Gemini => 1 | Azure => 0 end) + count_invokes m evs'
  | EvInvoke Azure _ :: evs' =>
      (match m with Gemini => 0 | Azure => 1 end) + count_invokes m evs'
  | _ :: evs' => count_invokes m evs'
  end.

(** Both models answer every call. *)
Definition cooperative (C : collaborators) : Prop :=
  (forall tr p, is_Some (gemini_model C tr p)) /\
  (forall tr p, is_Some (azure_model C tr p)).

(** No character of the text is a backtick. *)
Fixpoint no_tick (s : string) : bool :=
  match s with
  | EmptyString => true
  | String c s' => negb (Ascii.eqb backtick c) && no_tick s'
  end.

(** The main program's run waits at the review step with a draft and the
    input text, nothing has been exported, and each model has been called
    [k] times. *)
Definition awaiting_review (runs : gmap string Run) (w : world) (k : nat)
  : Prop :=
  (exists r, runs !! thread_id = Some r /\ status r = PAUSED /\
             paused_step r = Some human_review /\
             is_Some (run_state r !! "ado_tickets") /\
             is_Some (run_state r !! "spec_text")) /\
  files w = ∅ /\
  count_exports (trace w) = 0 /\
  count_invokes Gemini (trace w) = k /\
  count_invokes Azure (trace w) = k.

(** No value of the list makes the router choose the terminal step. *)
Definition none_approves (values : list string) : bool :=
  forallb (fun v => negb (approves v)) values.

(** The text is empty or begins with a character that is not white space. *)
Definition no_lead_space (s : string) : bool :=
  match s with
  | EmptyString => true
  | String c _ => negb (PyStr.is_space c)
  end.

(** Texts and states for the further properties at concrete inputs.  In
    [mixed_tickets] the second title ends with the escapes of a surrogate
    pair, which decode to one code point, and the third with the escape of
    a high surrogate alone. *)
Definition mixed_tickets : string :=
  JsonRef.text
    "[{'Title': 'First'}, {'Title': 'pair \ud83d\ude00'}, {'Title': 'lone \ud83d'}, 3]".

Definition mixed_items : list json :=
  [JObject [(unicode "Title", jstr "First")];
   JObject [(unicode "Title", JString (unicode "pair " ++ [128512%N]))];
   JObject [(unicode "Title", JString (unicode "lone " ++ [55357%N]))];
   JNumber "3"].

Definition padded_text : string := "  [1, 2]  ".

Definition block_body : string := nl +:+ "[]" +:+ nl.
Definition fenced_block : string := fence_json +:+ block_body +:+ fence.

Definition started_state : gmap string string := {[ "spec_text" := "X" ]}.

Definition analysed_state : gmap string string :=
  {[ "spec_text" := "X"; "analysis_gaps" := "No error states are described." ]}.

(** The three files the terminal step may write. *)
Definition is_artifact (path : string) : Prop :=
  path = json_filename \/ path = default_output_file \/ path = fallback_file.

(** * Theorems *)

(** ** The router *)

Lemma code_inj a b : PyStr.code a = PyStr.code b -> a = b.
Proof.
  unfold PyStr.code. intros H.
  rewrite <- (ascii_nat_embedding a), <- (ascii_nat_embedding b).
  now rewrite H.
Qed.

Lemma is_upper_bound c : PyStr.is_upper c = true -> PyStr.code c <= 222.
Proof.
  unfold PyStr.is_upper. intros H.
  apply orb_true_iff in H as [H|H].
  - apply andb_true_iff in H as [_ H]. apply Nat.leb_le in H. lia.
  - apply andb_true_iff in H as [H _]. apply andb_true_iff in H as [_ H].
    apply Nat.leb_le in H. lia.
Qed.

Lemma code_lower_upper c :
  PyStr.is_upper c = true ->
  PyStr.code (PyStr.lower_char c) = PyStr.code c + 32.
Proof.
  intros H. unfold PyStr.lower_char. rewrite H.
  unfold PyStr.code at 1. apply nat_ascii_embedding.
  apply is_upper_bound in H. lia.
Qed.

Lemma lower_char_same_letter a b :
  PyStr.is_upper b = false ->
  PyStr.lower_char a = b <-> same_letter a b.
Proof.
  intros Hb. split.
  - intros <-. destruct (PyStr.is_upper a) eqn:Ha.
    + right. left. split; [done|]. by apply code_lower_upper.
    + left. unfold PyStr.lower_char. by rewrite Ha.
  - intros [->|[[Ha Hc]|[Hb' _]]].
    + unfold PyStr.lower_char. by rewrite Hb.
    + apply code_inj. rewrite Hc. by apply code_lower_upper.
    + congruence.
Qed.

Lemma lower_caseless t :
  no_upper t = true -> forall s, PyStr.lower s = t <-> caseless_eq s t.
Proof.
  induction t as [|b t IH]; intros Ht s.
  - destruct s; simpl; split; intros H; try constructor; try discriminate.
    inversion H.
  - simpl in Ht. apply andb_true_iff in Ht as [Hb Ht].
    apply negb_true_iff in Hb.
    destruct s as [|a s]; simpl.
    + split; intros H; [discriminate|inversion H].
    + split.
      * intros H. injection H as Ha Hs. constructor.
        -- by apply lower_char_same_letter.
        -- by apply IH.
      * intros H. inversion H; subst. f_equal.
        -- by apply lower_char_same_letter.
        -- by apply IH.
Qed.

(** C1. For every state, the router returns [save_tickets] exactly when the
    human-supplied value equals "approve" up to the case of its letters, and
    [analyze_spec] for every other value; the empty string and a missing
    value are among the others. *)
Theorem router_approve_iff (state : gmap string string) :
  (router state = save_tickets <-> caseless_eq (human_value state) "approve") /\
  (router state = analyze_spec <-> ~ caseless_eq (human_value state) "approve") /\
  (human_value state = EmptyString -> router state = analyze_spec).
Proof.
  assert (Hl : PyStr.lower (human_value state) = "approve" <->
               caseless_eq (human_value state) "approve")
    by (apply lower_caseless; reflexivity).
  unfold router. fold (human_value state).
  destruct (String.eqb_spec (PyStr.lower (human_value state)) "approve") as [E|E].
  - split; [|split].
    + split; [intros _; by apply Hl|done].
    + split; [discriminate|]. intros H. exfalso. apply H. by apply Hl.
    + intros H0. rewrite H0 in E. discriminate.
  - split; [|split].
    + split; [discriminate|]. intros H. exfalso. apply E. by apply Hl.
    + split; [|done]. intros _ H. apply E. by apply Hl.
    + done.
Qed.

(** ** The state container *)

(** C2. Merging a partial update into a state gives every key of the update
    the update's value, leaves every other key of the state with its prior
    value, and deletes no key. *)
Theorem merge_overwrites_and_preserves (s u : gmap string string) :
  (forall k v, u !! k = Some v -> merge s u !! k = Some v) /\
  (forall k, u !! k = None -> merge s u !! k = s !! k) /\
  (forall k, is_Some (s !! k) -> is_Some (merge s u !! k)).
Proof.
  unfold merge. split; [|split].
  - intros k v Hu. by apply lookup_union_Some_l.
  - intros k Hu. by apply lookup_union_r.
  - intros k [x Hs]. rewrite lookup_union.
    destruct (u !! k) as [y|]; rewrite Hs; simpl; eauto.
Qed.

(** The keys of a merged state are those of the state and of the update. *)
Lemma merge_dom (s u : gmap string string) :
  dom (merge s u) = dom u ∪ dom s.
Proof. unfold merge. apply dom_union_L. Qed.

Lemma merge_empty (s : gmap string string) : merge s ∅ = s.
Proof. unfold merge. apply (left_id_L ∅ (∪)). Qed.

(** ** The export *)

Lemma alter_present {A} (f : A -> A) (m : gmap string A) k x :
  m !! k = Some x -> alter f k m = <[k := f x]> m.
Proof.
  intros H. apply map_eq. intros j. destruct (decide (k = j)) as [->|Hne].
  - by rewrite lookup_alter_eq, lookup_insert_eq, H.
  - by rewrite lookup_alter_ne, lookup_insert_ne.
Qed.

Lemma ustr_eqb_eq a b : ustr_eqb a b = true <-> a = b.
Proof.
  revert b. induction a as [|x a IH]; intros [|y b]; simpl; try done.
  rewrite andb_true_iff, N.eqb_eq, IH. split.
  - by intros [-> ->].
  - by intros [= -> ->].
Qed.

(** A text with code points below 256 holds no surrogate: UTF-8 encodes
    it. *)
Lemma unicode_encodable s : utf8_encodable (unicode s) = true.
Proof.
  unfold utf8_encodable, unicode. apply forallb_forall. intros c Hc.
  apply in_map_iff in Hc as (a & <- & _).
  pose proof (nat_ascii_bounded a) as Hb. unfold PyStr.code, is_surrogate.
  apply negb_true_iff, andb_false_iff. left. apply N.leb_gt. lia.
Qed.

Lemma write_tickets_cons_record path members rest w :
  write_tickets path (JObject members :: rest) w =
  if row_encodable (JObject members)
  then write_tickets path rest
         (World (alter (append_row (cells_of (JObject members))) path (files w))
                (trace w))
  else (Raise UnicodeEncodeError, w).
Proof.
  unfold row_encodable. cbn [write_tickets].
  unfold bind, ticket_row, lift, json_get, ret, DictWriter.writerow, bind, lift,
    csv_writerow.
  cbn -[unicode forallb].
  repeat match goal with
  | |- context [forallb encodable ?r] =>
      lazymatch r with
      | cells_of _ => fail
      | _ => change r with (cells_of (JObject members))
      end
  | |- context [append_row ?r] =>
      lazymatch r with
      | cells_of _ => fail
      | _ => change r with (cells_of (JObject members))
      end
  end.
  by destruct (forallb encodable (cells_of (JObject members))).
Qed.

Lemma write_tickets_cons_other path ticket rest w :
  is_record ticket = false ->
  write_tickets path (ticket :: rest) w = (Raise AttributeError, w).
Proof. destruct ticket; try discriminate; reflexivity. Qed.

Lemma write_tickets_records path items :
  forall w rows0,
    forallb is_record items = true ->
    forallb row_encodable items = true ->
    files w !! path = Some (CsvFile rows0) ->
    write_tickets path items w =
    (Ok tt, World (<[path := CsvFile (rows0 ++ map cells_of items)]> (files w))
                  (trace w)).
Proof.
  induction items as [|ticket rest IH]; intros w rows0 Hrec Henc Hfile.
  - simpl. rewrite app_nil_r, insert_id by done. by destruct w.
  - cbn [forallb] in Hrec, Henc.
    apply andb_true_iff in Hrec as [Ht Hrest].
    apply andb_true_iff in Henc as [He Hencs].
    destruct ticket; try discriminate.
    rewrite write_tickets_cons_record, He.
    rewrite (alter_present _ _ _ _ Hfile).
    rewrite (IH _ (rows0 ++ [cells_of (JObject members)])%list);
      cbn [files trace map].
    + by rewrite insert_insert_eq, <- app_assoc.
    + done.
    + done.
    + by rewrite lookup_insert_eq.
Qed.

Lemma write_tickets_frame path items :
  forall w r w',
    write_tickets path items w = (r, w') ->
    trace w' = trace w /\
    (forall p, p <> path -> files w' !! p = files w !! p).
Proof.
  induction items as [|ticket rest IH]; intros w r w' H.
  - injection H as <- <-. done.
  - destruct (is_record ticket) eqn:Ht.
    + destruct ticket; try discriminate.
      rewrite write_tickets_cons_record in H.
      destruct (row_encodable (JObject members)).
      * apply IH in H as [Htr Hfr]. cbn [files trace] in *. split; [done|].
        intros p Hp. rewrite Hfr by done. by apply lookup_alter_ne.
      * injection H as <- <-. done.
    + rewrite write_tickets_cons_other in H by done.
      injection H as <- <-. done.
Qed.


Lemma export_try_clean_raises C t out w e :
  clean t = Raise e -> export_try C t out w = (Raise e, w).
Proof. intros H. unfold export_try, bind, lift. by rewrite H. Qed.

Lemma export_try_loads_raises C t out w c e :
  clean t = Ok c -> json_loads C c = Raise e ->
  export_try C t out w = (Raise e, w).
Proof. intros H H'. unfold export_try, bind, lift. by rewrite H; simpl; rewrite H'. Qed.

Lemma writeheader_opened out m tr :
  DictWriter.writeheader out fieldnames (World (<[out := CsvFile []]> m) tr) =
  (Ok tt, World (<[out := CsvFile [header_row]]> m) tr).
Proof.
  unfold DictWriter.writeheader, DictWriter.writerow, bind, lift, csv_writerow.
  simpl. by rewrite alter_insert_eq.
Qed.

Lemma export_try_loaded C t out w c tickets :
  clean t = Ok c -> json_loads C c = Ok tickets ->
  export_try C t out w =
  match py_iter tickets with
  | Raise e => (Raise e, opened out w)
  | Ok items =>
      match write_tickets out items (opened out w) with
      | (Ok _, w') => (Ok (Some out), w')
      | (Raise e, w') => (Raise e, w')
      end
  end.
Proof.
  intros H H'. unfold export_try, bind at 1, lift at 1. rewrite H.
  unfold ret at 1, bind at 1, lift at 1. rewrite H'.
  unfold ret at 1, bind at 1, csv_open, bind at 1.
  rewrite writeheader_opened. fold (opened out w).
  unfold bind at 1, lift. destruct (py_iter tickets); [|reflexivity].
  unfold ret at 1, bind.
  by destruct (write_tickets out a (opened out w)) as [[[]|e] w2].
Qed.

(** The [try] block adds at most the opening of the CSV file to the trace
    and touches no other file. *)
Lemma export_try_frame C t out w r w' :
  export_try C t out w = (r, w') ->
  (exists evs, trace w' = trace w ++ evs /\ count_exports evs = 0) /\
  (forall p, p <> out -> files w' !! p = files w !! p).
Proof.
  intros H.
  destruct (clean t) as [c|e] eqn:Hc.
  2:{ rewrite (export_try_clean_raises _ _ _ _ _ Hc) in H. injection H as <- <-.
      split; [exists []; by rewrite app_nil_r|done]. }
  destruct (json_loads C c) as [tickets|e] eqn:Hl.
  2:{ rewrite (export_try_loads_raises _ _ _ _ _ _ Hc Hl) in H.
      injection H as <- <-. split; [exists []; by rewrite app_nil_r|done]. }
  rewrite (export_try_loaded _ _ _ _ _ _ Hc Hl) in H.
  assert (Hopen : forall p, p <> out -> files (opened out w) !! p = files w !! p).
  { intros p Hp. simpl. by apply lookup_insert_ne. }
  destruct (py_iter tickets) as [items|e].
  - destruct (write_tickets out items (opened out w)) as [[[]|e] w2] eqn:Hw;
      injection H as <- <-; apply write_tickets_frame in Hw as [Htr Hfr];
      (split; [exists [EvOpen out]; by rewrite Htr|]);
      intros p Hp; rewrite Hfr by done; by apply Hopen.
  - injection H as <- <-. split; [by exists [EvOpen out]|done].
Qed.

Lemma export_entered C t out w :
  export_to_ado_csv C t out w =
  try_except (export_try C t out) (export_except t)
             (World (files w) (trace w ++ [EvExport t])).
Proof. reflexivity. Qed.

Lemma export_except_ok t e w :
  exists w', export_except t e w = (Ok None, w') /\
    (exists evs, trace w' = trace w ++ evs /\ count_exports evs = 0) /\
    (forall p, p <> fallback_file -> files w' !! p = files w !! p).
Proof.
  destruct e; simpl;
    try (exists w; split; [done|]; split; [exists []; by rewrite app_nil_r|done]).
  eexists. split; [reflexivity|]. simpl. split.
  - by exists [EvOpen fallback_file].
  - intros p Hp. by apply lookup_insert_ne.
Qed.

(** The export returns to its caller whatever the text: every exception of
    the [try] block is handled. *)
Lemma export_never_raises C t out w :
  exists o w', export_to_ado_csv C t out w = (Ok o, w').
Proof.
  rewrite export_entered. unfold try_except.
  destruct (export_try C t out _) as [[o|e] w2]; [eauto|].
  destruct (export_except_ok t e w2) as (w3 & -> & _). eauto.
Qed.

(** One call of the export is one [EvExport] event, and no file other than
    the output file and the fallback file is touched. *)
Lemma export_frame C t out w r w' :
  export_to_ado_csv C t out w = (r, w') ->
  (exists evs, trace w' = trace w ++ EvExport t :: evs /\ count_exports evs = 0) /\
  (forall p, p <> out -> p <> fallback_file -> files w' !! p = files w !! p).
Proof.
  rewrite export_entered. unfold try_except.
  destruct (export_try C t out _) as [[o|e] w2] eqn:Htry;
    apply export_try_frame in Htry as [(evs & Htr & Hn) Hfr]; simpl in *.
  - intros [= <- <-]. split.
    + exists evs. by rewrite Htr, <- app_assoc.
    + intros p Hp _. by apply Hfr.
  - destruct (export_except_ok t e w2) as (w3 & -> & (evs' & Htr' & Hn') & Hfr').
    intros [= <- <-]. split.
    + exists (evs ++ evs'). rewrite Htr', Htr, <- !app_assoc. split; [done|].
      clear -Hn Hn'. induction evs as [|x evs IH]; simpl in *; [done|].
      destruct (is_export x); simpl in *; [lia|]. by apply IH.
    + intros p Hp Hp'. rewrite Hfr' by done. by apply Hfr.
Qed.

(** *** The clean-up never raises *)

Lemma split_go_cons sep skip cur s :
  exists p ps, PyStr.split_go sep skip cur s = p :: ps.
Proof.
  revert skip cur.
  induction s as [|c s IH]; intros skip cur; cbn [PyStr.split_go]; [eauto|].
  destruct skip; [|apply IH].
  destruct (PyStr.startswith (String c s) sep); [eauto|apply IH].
Qed.

Lemma split_startswith s sep :
  sep <> EmptyString -> PyStr.startswith s sep = true ->
  exists p ps, PyStr.split s sep = EmptyString :: p :: ps.
Proof.
  intros Hsep H. destruct s as [|a s].
  - destruct sep; [done|discriminate].
  - unfold PyStr.split. cbn [PyStr.split_go]. rewrite H.
    destruct (split_go_cons sep (String.length sep - 1) EmptyString s)
      as (p & ps & ->).
    eauto.
Qed.

Lemma clean_total t : exists c, clean t = Ok c.
Proof.
  assert (Hj : fence_json <> EmptyString) by done.
  assert (Hf : fence <> EmptyString) by done.
  unfold clean.
  destruct (PyStr.startswith (PyStr.strip t) fence_json) eqn:H1.
  - destruct (split_startswith _ _ Hj H1) as (p & ps & ->). simpl.
    destruct (PyStr.startswith p fence) eqn:H2; [|eauto].
    destruct (split_startswith _ _ Hf H2) as (p' & ps' & ->). simpl.
    eauto.
  - destruct (PyStr.startswith (PyStr.strip t) fence) eqn:H2; [|eauto].
    destruct (split_startswith _ _ Hf H2) as (p' & ps' & ->). simpl.
    eauto.
Qed.

(** *** What the export writes *)

Lemma export_decode_error C t c out w :
  clean t = Ok c -> json_loads C c = Raise JSONDecodeError ->
  export_to_ado_csv C t out w = (Ok None, fell_back t w).
Proof.
  intros Hc Hl. rewrite export_entered. unfold try_except.
  rewrite (export_try_loads_raises _ _ _ _ _ _ Hc Hl).
  unfold fell_back. simpl. unfold bind, write_text, ret. simpl.
  by rewrite <- app_assoc.
Qed.

Lemma export_success_inv C t out w o w' :
  export_to_ado_csv C t out w = (Ok (Some o), w') ->
  o = out /\ exists c tickets, clean t = Ok c /\ json_loads C c = Ok tickets.
Proof.
  rewrite export_entered. unfold try_except.
  destruct (export_try C t out _) as [[o'|e] w2] eqn:Htry.
  - intros [= -> <-].
    destruct (clean t) as [c|e] eqn:Hc.
    2:{ by rewrite (export_try_clean_raises _ _ _ _ _ Hc) in Htry. }
    destruct (json_loads C c) as [tickets|e] eqn:Hl.
    2:{ by rewrite (export_try_loads_raises _ _ _ _ _ _ Hc Hl) in Htry. }
    split; [|eauto].
    rewrite (export_try_loaded _ _ _ _ _ _ Hc Hl) in Htry.
    destruct (py_iter tickets) as [items|e]; [|discriminate].
    destruct (write_tickets out items _) as [[[]|e] w3]; congruence.
  - destruct (export_except_ok t e w2) as (w3 & -> & _). discriminate.
Qed.

Lemma export_records C t c items out w :
  clean t = Ok c -> json_loads C c = Ok (JArray items) ->
  forallb is_record items = true ->
  forallb row_encodable items = true ->
  export_to_ado_csv C t out w =
  (Ok (Some out), exported t out (map cells_of items) w).
Proof.
  intros Hc Hl Hrec Henc. rewrite export_entered. unfold try_except.
  rewrite (export_try_loaded _ _ _ _ _ _ Hc Hl). simpl py_iter. cbv iota.
  rewrite (write_tickets_records out items _ [header_row] Hrec Henc)
    by apply lookup_insert_eq.
  unfold exported, opened. simpl. by rewrite insert_insert_eq, <- app_assoc.
Qed.

Lemma cells_of_rules members :
  let row := cells_of (JObject members) in
  cell_rule members row 0 "Work Item Type" (JString (unicode "User Story")) /\
  cell_rule members row 1 "Title" (JString []) /\
  cell_rule members row 2 "Description" (JString []) /\
  cell_rule members row 3 "Acceptance Criteria" (JString []) /\
  cell_rule members row 4 "Priority" (JString (unicode "2")).
Proof.
  unfold cell_rule, cells_of, field. cbn [lookup list_lookup].
  repeat split; intros;
    by match goal with H : member _ _ = _ |- _ => rewrite H end.
Qed.

(** C3, as amended.  When the cleaned text is not JSON ([json.loads] raises
    [JSONDecodeError]), the export writes the raw, unparsed input to the
    fallback file, touches nothing else, and returns [None] without raising;
    the success result, the name of the output file, is returned only for
    text that did decode. *)
Theorem export_fallback_on_decode_error C t c out w :
  clean t = Ok c -> json_loads C c = Raise JSONDecodeError ->
  export_to_ado_csv C t out w = (Ok None, fell_back t w) /\
  files (fell_back t w) !! fallback_file = Some (TextFile t) /\
  (forall t' w0 o w',
      export_to_ado_csv C t' out w0 = (Ok (Some o), w') ->
      o = out /\ exists c' tickets,
        clean t' = Ok c' /\ json_loads C c' = Ok tickets).
Proof.
  intros Hc Hl. split; [by eapply export_decode_error|]. split.
  - apply lookup_insert_eq.
  - intros t' w0 o w'. apply export_success_inv.
Qed.

(** C7, as amended.  A text that decodes to exactly three well-formed
    records, none with a surrogate in a field, is exported as the header
    followed by exactly three rows, and row [i] holds, field for field, the
    values of record [i]: each header field has the record's value, and the
    record has no value that is not in the row. *)
Theorem export_three_records C t c items out w :
  clean t = Ok c -> json_loads C c = Ok (JArray items) ->
  length items = 3 -> forallb well_formed_record items = true ->
  forallb row_encodable items = true ->
  exists rows,
    export_to_ado_csv C t out w = (Ok (Some out), exported t out rows w) /\
    files (exported t out rows w) !! out = Some (CsvFile (header_row :: rows)) /\
    length rows = 3 /\
    forall i members,
      items !! i = Some (JObject members) ->
      exists row,
        rows !! i = Some row /\ length row = length fieldnames /\
        (forall j k, fieldnames !! j = Some k ->
                     is_Some (row !! j) /\
                     row !! j = member (unicode k) members) /\
        (forall k v, member k members = Some v ->
                     exists j name, fieldnames !! j = Some name /\
                                    k = unicode name /\ row !! j = Some v).
Proof.
  intros Hc Hl Hlen Hwf Henc.
  assert (Hrec : forallb is_record items = true).
  { clear -Hwf. induction items as [|x xs IH]; [done|]. simpl in *.
    apply andb_true_iff in Hwf as [Hx Hxs]. rewrite IH by done.
    by destruct x. }
  exists (map cells_of items). split; [by apply export_records with c|].
  split; [apply lookup_insert_eq|]. split; [by rewrite length_map|].
  intros i members Hi. exists (cells_of (JObject members)).
  split; [by rewrite list_lookup_fmap, Hi|]. split; [done|].
  assert (Hm : well_formed_record (JObject members) = true).
  { clear -Hwf Hi. rewrite forallb_forall in Hwf. apply Hwf.
    apply list_elem_of_In. by eapply list_elem_of_lookup_2. }
  cbn [well_formed_record] in Hm. apply andb_true_iff in Hm as [Hall Honly].
  assert (Hcell : forall j k, fieldnames !! j = Some k ->
                   is_Some (cells_of (JObject members) !! j) /\
                   cells_of (JObject members) !! j
                     = member (unicode k) members).
  { intros j k Hj. rewrite forallb_forall in Hall.
    assert (Hk : In k fieldnames)
      by (apply list_elem_of_In; by eapply list_elem_of_lookup_2).
    specialize (Hall k Hk).
    destruct (member (unicode k) members) as [v|] eqn:Hv; [|discriminate].
    destruct (cells_of_rules members) as (R0 & R1 & R2 & R3 & R4).
    do 5 (destruct j as [|j]; [injection Hj as <-; rewrite <- Hv;
          first [ rewrite (proj2 R0 _ Hv) | rewrite (proj2 R1 _ Hv)
                | rewrite (proj2 R2 _ Hv) | rewrite (proj2 R3 _ Hv)
                | rewrite (proj2 R4 _ Hv) ]; rewrite Hv; eauto|]).
    discriminate. }
  split; [exact Hcell|].
  intros k v Hv.
  assert (Hk : exists j name, fieldnames !! j = Some name /\ k = unicode name).
  { clear -Honly Hv. rewrite forallb_forall in Honly.
    induction members as [|[k' v'] ms IH]; [discriminate|].
    cbn [member] in Hv. destruct (ustr_eqb k k') eqn:E.
    - apply ustr_eqb_eq in E as ->.
      specialize (Honly (k', v') (or_introl eq_refl)). cbn [fst] in Honly.
      apply existsb_exists in Honly as (x & Hx & Heq).
      apply ustr_eqb_eq in Heq as ->.
      apply list_elem_of_In, list_elem_of_lookup_1 in Hx as [j Hj]. eauto.
    - apply IH; [|done]. intros x Hx. apply Honly. by right. }
  destruct Hk as (j & name & Hj & ->). exists j, name.
  split; [done|]. split; [done|].
  destruct (Hcell j name Hj) as [_ ->]. done.
Qed.

(** C9, as amended.  A record never makes the export fail for a field it
    lacks.  A text that decodes to records, whatever fields each has, is
    exported with one row per record when no field to be written holds a
    surrogate; in each row a missing [Work Item Type] reads [User Story], a
    missing [Priority] reads [2], and a missing [Title], [Description] or
    [Acceptance Criteria] reads as the empty string, while a field the
    record has keeps its value. *)
Theorem export_defaults_for_missing_fields C t c items out w :
  clean t = Ok c -> json_loads C c = Ok (JArray items) ->
  forallb is_record items = true ->
  forallb row_encodable items = true ->
  exists rows,
    export_to_ado_csv C t out w = (Ok (Some out), exported t out rows w) /\
    length rows = length items /\
    forall i members,
      items !! i = Some (JObject members) ->
      exists row,
        rows !! i = Some row /\
        cell_rule members row 0 "Work Item Type"
                  (JString (unicode "User Story")) /\
        cell_rule members row 1 "Title" (JString []) /\
        cell_rule members row 2 "Description" (JString []) /\
        cell_rule members row 3 "Acceptance Criteria" (JString []) /\
        cell_rule members row 4 "Priority" (JString (unicode "2")).
Proof.
  intros Hc Hl Hrec Henc. exists (map cells_of items).
  split; [by apply export_records with c|]. split; [by rewrite length_map|].
  intros i members Hi. exists (cells_of (JObject members)).
  split; [by rewrite list_lookup_fmap, Hi|]. apply cells_of_rules.
Qed.

(** ** Steps and the input text *)

Ltac run_monad :=
  unfold bind, ret, raise, lift, emit, write_text, csv_open, csv_writerow,
    try_except in *; simpl in *.

Lemma analyze_update C s w u w' :
  analyze_requirements_node C s w = (Ok u, w') ->
  exists response, u = {[ "analysis_gaps" := response ]}.
Proof.
  unfold analyze_requirements_node, invoke. run_monad.
  destruct (getitem s "spec_text") as [t|e]; simpl; [|discriminate].
  destruct (gemini_model C (trace w) _) as [r|]; [|discriminate].
  intros [= <- <-]. eauto.
Qed.

Lemma draft_update C s w u w' :
  draft_tickets_node C s w = (Ok u, w') ->
  exists response, u = {[ "ado_tickets" := response ]}.
Proof.
  unfold draft_tickets_node, invoke. run_monad.
  destruct (getitem s "analysis_gaps") as [a|e]; simpl; [|discriminate].
  destruct (getitem s "spec_text") as [t|e]; simpl; [|discriminate].
  destruct (azure_model C (trace w) _) as [r|]; [|discriminate].
  intros [= <- <-]. eauto.
Qed.

Lemma review_update resume s w u w' :
  human_review_node resume s w = (Ok u, w') ->
  exists v, resume = Some v /\ u = {[ "human_feedback" := v ]} /\ w' = w /\
            is_Some (s !! "ado_tickets").
Proof.
  unfold human_review_node, interrupt, getitem. run_monad.
  destruct (s !! "ado_tickets") as [t|]; simpl; [|discriminate].
  destruct resume as [v|]; simpl; [|discriminate].
  intros [= <- <-]. eauto 6.
Qed.

Lemma save_update C s w u w' :
  save_to_file_node C s w = (Ok u, w') -> u = ∅.
Proof.
  unfold save_to_file_node, getitem, bind at 1, lift.
  destruct (s !! "ado_tickets") as [t|]; simpl; [|discriminate].
  unfold bind, write_text, lift, ret.
  match goal with
  | |- context [export_to_ado_csv C t default_output_file ?w0] =>
      destruct (export_never_raises C t default_output_file w0) as (o & w1 & ->)
  end.
  by intros [= <- <-].
Qed.

(** No step returns an update with the key [spec_text]. *)
Lemma node_update_no_spec_text C n resume s w u w' :
  run_node C n resume s w = (Ok u, w') -> u !! "spec_text" = None.
Proof.
  destruct n; simpl; intros H.
  - apply analyze_update in H as [r ->]. by apply lookup_singleton_ne.
  - apply draft_update in H as [r ->]. by apply lookup_singleton_ne.
  - apply review_update in H as (v & _ & -> & _). by apply lookup_singleton_ne.
  - apply save_update in H as ->. apply lookup_empty.
Qed.

(** ** Resuming a run that is not paused *)

(** C6. Resuming an unknown run fails with [NoSuchRun], resuming a run that
    is running or terminated fails with [NotPaused]; either way the runs and
    the world are returned untouched. *)
Theorem resume_not_paused C (run_id value : string)
    (runs : gmap string Run) (w : world) :
  (runs !! run_id = None ->
   resume C run_id value runs w = (Failure NoSuchRun, runs, w)) /\
  (forall r, runs !! run_id = Some r ->
             status r = RUNNING \/ status r = TERMINATED ->
             resume C run_id value runs w = (Failure NotPaused, runs, w)).
Proof.
  split.
  - intros H. unfold resume. by rewrite H.
  - intros r H Hs. unfold resume. rewrite H.
    destruct Hs as [-> | ->]; reflexivity.
Qed.

(** ** Removing the code fences *)

Lemma str_app_assoc (a b c : string) : (a +:+ b) +:+ c = a +:+ (b +:+ c).
Proof.
  induction a as [|x a IH]; [reflexivity|].
  change (String x ((a +:+ b) +:+ c) = String x (a +:+ (b +:+ c))).
  by rewrite IH.
Qed.

Lemma str_app_nil_r (a : string) : a +:+ EmptyString = a.
Proof.
  induction a as [|x a IH]; [reflexivity|].
  change (String x (a +:+ EmptyString) = String x a). by rewrite IH.
Qed.

Lemma rev_acc_app s : forall acc,
  PyStr.rev_acc s acc = PyStr.rev_acc s EmptyString +:+ acc.
Proof.
  induction s as [|c s IH]; intros acc; [reflexivity|].
  cbn [PyStr.rev_acc]. rewrite (IH (String c acc)), (IH (String c EmptyString)).
  by rewrite str_app_assoc.
Qed.

Lemma rev_cons c s :
  PyStr.rev (String c s) = PyStr.rev s +:+ String c EmptyString.
Proof. unfold PyStr.rev. cbn [PyStr.rev_acc]. apply rev_acc_app. Qed.

Lemma joined_nil sep skip cur : joined sep skip cur EmptyString = PyStr.rev cur.
Proof. reflexivity. Qed.

Lemma joined_skip sep k cur c s :
  joined sep (S k) cur (String c s) = joined sep k cur s.
Proof. reflexivity. Qed.

Lemma joined_match sep cur c s :
  PyStr.startswith (String c s) sep = true ->
  joined sep 0 cur (String c s) =
  PyStr.rev cur +:+ joined sep (String.length sep - 1) EmptyString s.
Proof.
  intros H. unfold joined. cbn [PyStr.split_go]. rewrite H.
  destruct (split_go_cons sep (String.length sep - 1) EmptyString s)
    as (p & ps & ->).
  reflexivity.
Qed.

Lemma joined_nomatch sep cur c s :
  PyStr.startswith (String c s) sep = false ->
  joined sep 0 cur (String c s) = joined sep 0 (String c cur) s.
Proof. intros H. unfold joined. cbn [PyStr.split_go]. by rewrite H. Qed.

(** The piece under construction comes out in front of the rest. *)
Lemma joined_acc sep s : forall skip cur,
  joined sep skip cur s = PyStr.rev cur +:+ joined sep skip EmptyString s.
Proof.
  induction s as [|c s IH]; intros skip cur.
  - rewrite !joined_nil. change (PyStr.rev EmptyString) with EmptyString.
    by rewrite str_app_nil_r.
  - destruct skip as [|k].
    + destruct (PyStr.startswith (String c s) sep) eqn:E.
      * by rewrite !(joined_match _ _ _ _ E).
      * rewrite !(joined_nomatch _ _ _ _ E).
        rewrite (IH 0 (String c cur)), (IH 0 (String c EmptyString)).
        by rewrite rev_cons, str_app_assoc.
    + rewrite !joined_skip. apply IH.
Qed.

Lemma removed_nomatch sep c s :
  PyStr.startswith (String c s) sep = false ->
  joined sep 0 EmptyString (String c s) = String c (joined sep 0 EmptyString s).
Proof. intros H. by rewrite (joined_nomatch _ _ _ _ H), joined_acc. Qed.

Lemma lead_fence s : PyStr.startswith s fence = true <-> 3 <= lead s.
Proof.
  unfold fence.
  destruct s as [|c1 [|c2 [|c3 s]]]; cbn [PyStr.startswith lead];
    unfold backtick;
    repeat match goal with
           | |- context [Ascii.eqb ?b ?c] => destruct (Ascii.eqb b c)
           end;
    split; intros H; try done; try lia.
  by destruct s.
Qed.

(** Whatever the state of the scan, the text that [replace("```", "")]
    goes on to return holds no fence and begins with fewer than three
    backticks; it begins with as many as the text still to be scanned when
    that begins with fewer than three. *)
Lemma removal_invariant s : forall skip,
  occurs fence (joined fence skip EmptyString s) = false /\
  lead (joined fence skip EmptyString s) < 3 /\
  (lead (PyStr.drop skip s) < 3 ->
   lead (joined fence skip EmptyString s) = lead (PyStr.drop skip s)).
Proof.
  induction s as [|c s IH]; intros skip.
  - rewrite joined_nil. change (PyStr.rev EmptyString) with EmptyString.
    destruct skip; cbn; repeat split; lia.
  - destruct skip as [|k].
    + cbn [PyStr.drop].
      destruct (PyStr.startswith (String c s) fence) eqn:E.
      * rewrite (joined_match _ _ _ _ E).
        change (String.length fence - 1) with 2.
        change (PyStr.rev EmptyString +:+ joined fence 2 EmptyString s)
          with (joined fence 2 EmptyString s).
        destruct (IH 2) as (Ho & Hl & _). split; [done|]. split; [done|].
        intros Hlt. apply lead_fence in E. lia.
      * rewrite (removed_nomatch _ _ _ E).
        destruct (IH 0) as (Ho & Hl & He). cbn [PyStr.drop] in He.
        assert (Hc : ~ 3 <= lead (String c s)).
        { intros H3. apply lead_fence in H3. congruence. }
        cbn [lead] in Hc |- *.
        assert (Hstart : forall x, lead (String c x) < 3 ->
                  PyStr.startswith (String c x) fence = false).
        { intros x Hx. destruct (PyStr.startswith (String c x) fence) eqn:Ex;
            [|done]. apply lead_fence in Ex. lia. }
        destruct (Ascii.eqb backtick c) eqn:Ec.
        -- assert (Hs : lead s < 3) by lia. specialize (He Hs).
           assert (Hx : lead (String c (joined fence 0 EmptyString s)) < 3).
           { cbn [lead]. rewrite Ec. lia. }
           split.
           { cbn [occurs]. by rewrite (Hstart _ Hx), Ho. }
           split; [lia|]. intros _. by rewrite He.
        -- assert (Hx : lead (String c (joined fence 0 EmptyString s)) < 3).
           { cbn [lead]. rewrite Ec. lia. }
           split.
           { cbn [occurs]. by rewrite (Hstart _ Hx), Ho. }
           split; [lia|done].
    + rewrite joined_skip. cbn [PyStr.drop]. apply IH.
Qed.

Lemma startswith_app needle : forall post,
  PyStr.startswith (needle +:+ post) needle = true.
Proof.
  induction needle as [|c n IH]; intros post; [by destruct post|].
  change (String c n +:+ post) with (String c (n +:+ post)).
  cbn [PyStr.startswith]. by rewrite Ascii.eqb_refl.
Qed.

Lemma contains_occurs s needle :
  PyStr.contains s needle -> occurs needle s = true.
Proof.
  intros (pre & post & ->). induction pre as [|c pre IH].
  - change (EmptyString +:+ needle +:+ post) with (needle +:+ post).
    destruct (needle +:+ post) eqn:E; cbn [occurs]; rewrite <- E;
      by rewrite startswith_app.
  - change (String c pre +:+ needle +:+ post)
      with (String c (pre +:+ needle +:+ post)).
    cbn [occurs]. rewrite IH. apply orb_true_r.
Qed.

(** What the terminal step writes holds no code fence. *)
Lemma fences_removed_clean drafted :
  ~ PyStr.contains (fences_removed drafted) "```" /\
  ~ PyStr.contains (fences_removed drafted) "```json".
Proof.
  assert (H : ~ PyStr.contains (fences_removed drafted) "```").
  { intros Hc. apply contains_occurs in Hc.
    unfold fences_removed, PyStr.replace, PyStr.split in Hc.
    destruct (removal_invariant
                (PyStr.join EmptyString
                   (PyStr.split_go "```json" 0 EmptyString drafted)) 0)
      as (Ho & _).
    unfold joined, fence in Ho. congruence. }
  split; [exact H|].
  intros (pre & post & E). apply H. exists pre, ("json" +:+ post).
  exact E.
Qed.

(** ** The terminal step *)

Lemma save_runs C state drafted w :
  state !! "ado_tickets" = Some drafted ->
  exists csv w',
    export_to_ado_csv C drafted default_output_file (json_written drafted w)
      = (Ok csv, w') /\
    save_to_file_node C state w = (Ok ∅, w').
Proof.
  intros H.
  destruct (export_never_raises C drafted default_output_file
              (json_written drafted w)) as (csv & w' & He).
  exists csv, w'. split; [done|].
  unfold save_to_file_node, getitem, bind at 1, lift. rewrite H.
  unfold ret at 1, bind at 1, write_text.
  change ((let* drafted' := ret drafted in
           let* _ := export_to_ado_csv C drafted' default_output_file in
           ret (∅ : gmap string string)) (json_written drafted w)
          = (Ok (∅ : gmap string string), w')).
  unfold bind at 1, ret at 1. cbv beta iota. unfold bind. by rewrite He.
Qed.

(** C10. The terminal step writes the JSON file, holding the drafted text
    with every "```json" and then every "```" replaced by nothing (no fence
    is left in it), before it calls the CSV export: the export starts in a
    world that has the file, and whatever the export returns, [None]
    included, the file is still there afterwards.  The step returns the
    empty update, which leaves the state as it is. *)
Theorem save_writes_json_before_export C state drafted w :
  state !! "ado_tickets" = Some drafted ->
  exists csv w' evs,
    export_to_ado_csv C drafted default_output_file (json_written drafted w)
      = (Ok csv, w') /\
    save_to_file_node C state w = (Ok ∅, w') /\
    files (json_written drafted w) !! json_filename
      = Some (TextFile (fences_removed drafted)) /\
    files w' !! json_filename = Some (TextFile (fences_removed drafted)) /\
    ~ PyStr.contains (fences_removed drafted) "```" /\
    trace w' = trace w ++ EvOpen json_filename :: EvExport drafted :: evs /\
    count_exports evs = 0 /\
    merge state ∅ = state.
Proof.
  intros H. destruct (save_runs C state drafted w H) as (csv & w' & He & Hs).
  destruct (export_frame _ _ _ _ _ _ He) as [(evs & Htr & Hn) Hfr].
  exists csv, w', evs.
  split; [done|]. split; [done|]. split; [apply lookup_insert_eq|].
  split; [rewrite Hfr by done; apply lookup_insert_eq|].
  split; [apply fences_removed_clean|].
  split; [rewrite Htr; simpl; by rewrite <- app_assoc|].
  split; [done|apply merge_empty].
Qed.

(** ** Driving a run *)

Lemma drive_step_ok C fuel n resume s count w u w' :
  run_node C n resume s w = (Ok u, w') ->
  drive C (S fuel) n resume s count w =
  match successor n (merge s u) with
  | END => (Completed, merge s u, S count, w')
  | Goto n' => drive C fuel n' None (merge s u) (S count) w'
  end.
Proof. intros H. cbn [drive]. by rewrite H. Qed.

Lemma drive_step_raise C fuel n resume s count w e w' :
  run_node C n resume s w = (Raise e, w') ->
  drive C (S fuel) n resume s count w =
  match e with
  | GraphInterrupt _ => (Suspended n, s, count, w')
  | _ => (Crashed n e, s, count, w')
  end.
Proof. intros H. cbn [drive]. rewrite H. by destruct e. Qed.

Lemma review_resumed value s w :
  is_Some (s !! "ado_tickets") ->
  human_review_node (Some value) s w = (Ok {[ "human_feedback" := value ]}, w).
Proof.
  intros [t H]. unfold human_review_node, getitem, bind, lift, interrupt.
  by rewrite H.
Qed.

Lemma review_suspends s w r w' :
  human_review_node None s w = (r, w') ->
  w' = w /\
  ((exists k, r = Raise (KeyError k)) \/
   (r = Raise (GraphInterrupt review_prompt) /\ is_Some (s !! "ado_tickets"))).
Proof.
  unfold human_review_node, getitem, bind, lift, interrupt.
  destruct (s !! "ado_tickets") as [t|]; simpl; intros [= <- <-]; eauto.
Qed.

Lemma reviewed_feedback s value :
  reviewed s value !! "human_feedback" = Some value.
Proof. unfold reviewed, merge. apply lookup_union_Some_l, lookup_singleton_eq. Qed.

Lemma reviewed_other s value k :
  k <> "human_feedback" -> reviewed s value !! k = s !! k.
Proof.
  intros Hk. unfold reviewed, merge. apply lookup_union_r.
  by apply lookup_singleton_ne.
Qed.

Lemma router_reviewed s value :
  router (reviewed s value) =
  if String.eqb (PyStr.lower value) "approve" then save_tickets else analyze_spec.
Proof. unfold router, state_get. by rewrite reviewed_feedback. Qed.

(** Only the review step suspends. *)
Lemma node_interrupt C n resume s w p w' :
  run_node C n resume s w = (Raise (GraphInterrupt p), w') ->
  n = human_review /\ resume = None /\ is_Some (s !! "ado_tickets").
Proof.
  destruct n; simpl.
  - unfold analyze_requirements_node, invoke, bind, lift, ret, raise.
    destruct (getitem s "spec_text") as [t|e] eqn:E; simpl.
    + destruct (gemini_model C (trace w) _); discriminate.
    + unfold getitem in E. destruct (s !! "spec_text"); [discriminate|].
      injection E as <-. discriminate.
  - unfold draft_tickets_node, invoke, bind, lift, ret, raise, getitem.
    destruct (s !! "analysis_gaps"); simpl; [|discriminate].
    destruct (s !! "spec_text"); simpl; [|discriminate].
    destruct (azure_model C (trace w) _); discriminate.
  - destruct resume as [v|].
    + unfold human_review_node, getitem, bind, lift, interrupt.
      destruct (s !! "ado_tickets"); simpl; discriminate.
    + intros H. apply review_suspends in H as [_ [[k Hk]|[_ Hs]]]; [discriminate|done].
  - unfold save_to_file_node, getitem, bind at 1, lift.
    destruct (s !! "ado_tickets") as [t|] eqn:E; simpl; [|discriminate].
    intros H. destruct (save_runs C s t w E) as (csv & w1 & _ & Hs).
    unfold save_to_file_node, getitem, bind at 1, lift in Hs.
    rewrite E in Hs. simpl in Hs. rewrite Hs in H. discriminate.
Qed.

Lemma analyze_needs_spec_text C s w u w' :
  analyze_requirements_node C s w = (Ok u, w') -> is_Some (s !! "spec_text").
Proof.
  unfold analyze_requirements_node, getitem, bind, lift.
  destruct (s !! "spec_text"); simpl; [eauto|discriminate].
Qed.

Lemma merge_keeps s u k : is_Some (s !! k) -> is_Some (merge s u !! k).
Proof.
  intros [x Hs]. unfold merge. rewrite lookup_union.
  destruct (u !! k) as [y|]; rewrite Hs; simpl; eauto.
Qed.

(** A call of the driving loop that ends suspended ends at the review step,
    with a draft in the state, and with the input text if the call began at
    the entry point or with the input text. *)
Lemma drive_suspended C fuel :
  forall n resume s count w n' s' count' w',
    drive C fuel n resume s count w = (Suspended n', s', count', w') ->
    n' = human_review /\ is_Some (s' !! "ado_tickets") /\
    (n = analyze_spec \/ is_Some (s !! "spec_text") ->
     is_Some (s' !! "spec_text")).
Proof.
  induction fuel as [|fuel IH]; intros n resume s count w n' s' count' w' H;
    [discriminate|].
  destruct (run_node C n resume s w) as [[u|e] w1] eqn:Hrun.
  - rewrite (drive_step_ok _ _ _ _ _ _ _ _ _ Hrun) in H.
    destruct (successor n (merge s u)) as [n1|] eqn:Hsucc; [|discriminate].
    apply IH in H as (-> & Hado & Hspec). split; [done|]. split; [done|].
    intros Hs. apply Hspec. right. apply merge_keeps.
    destruct Hs as [->|Hs]; [|done]. by eapply analyze_needs_spec_text.
  - rewrite (drive_step_raise _ _ _ _ _ _ _ _ _ Hrun) in H.
    destruct e; try discriminate. injection H as <- <- <- <-.
    apply node_interrupt in Hrun as (-> & _ & Hado). split; [done|].
    split; [done|]. by intros [?|?].
Qed.

(** Every step only adds to the trace. *)
Lemma node_trace_extends C n resume s w r w' :
  run_node C n resume s w = (r, w') -> exists evs, trace w' = trace w ++ evs.
Proof.
  destruct n; simpl.
  - unfold analyze_requirements_node, invoke, bind, lift, ret, raise.
    destruct (getitem s "spec_text"); simpl.
    + destruct (gemini_model C (trace w) _); intros [= <- <-]; simpl; eauto.
    + intros [= <- <-]. exists []. by rewrite app_nil_r.
  - unfold draft_tickets_node, invoke, bind, lift, ret, raise.
    destruct (getitem s "analysis_gaps"); simpl.
    2:{ intros [= <- <-]. exists []. by rewrite app_nil_r. }
    destruct (getitem s "spec_text"); simpl.
    2:{ intros [= <- <-]. exists []. by rewrite app_nil_r. }
    destruct (azure_model C (trace w) _); intros [= <- <-]; simpl; eauto.
  - unfold human_review_node, getitem, bind, lift, interrupt, ret, raise.
    destruct (s !! "ado_tickets"); simpl;
      [destruct resume|]; intros [= <- <-]; exists []; by rewrite app_nil_r.
  - destruct (s !! "ado_tickets") as [t|] eqn:E.
    + destruct (save_runs C s t w E) as (csv & w1 & He & ->).
      intros [= <- <-]. apply export_frame in He as [(evs & Htr & _) _].
      rewrite Htr. simpl. rewrite <- app_assoc. eauto.
    + unfold save_to_file_node, getitem, bind, lift. rewrite E. simpl.
      intros [= <- <-]. exists []. by rewrite app_nil_r.
Qed.

Lemma drive_trace_extends C fuel :
  forall n resume s count w h s' count' w',
    drive C fuel n resume s count w = (h, s', count', w') ->
    exists evs, trace w' = trace w ++ evs.
Proof.
  induction fuel as [|fuel IH]; intros n resume s count w h s' count' w' H.
  - injection H as <- <- <- <-. exists []. by rewrite app_nil_r.
  - destruct (run_node C n resume s w) as [[u|e] w1] eqn:Hrun;
      pose proof (node_trace_extends _ _ _ _ _ _ _ Hrun) as [evs1 Hevs1].
    + rewrite (drive_step_ok _ _ _ _ _ _ _ _ _ Hrun) in H.
      destruct (successor n (merge s u)) as [n1|].
      * apply IH in H as [evs Hevs]. rewrite Hevs, Hevs1, <- app_assoc. eauto.
      * injection H as <- <- <- <-. eauto.
    + rewrite (drive_step_raise _ _ _ _ _ _ _ _ _ Hrun) in H.
      destruct e; injection H as <- <- <- <-; eauto.
Qed.

(** Every call of the driving loop is a sequence of step executions. *)
Lemma drive_steps C fuel :
  forall n resume s count w h s' count' w',
    drive C fuel n resume s count w = (h, s', count', w') -> steps C s s'.
Proof.
  induction fuel as [|fuel IH]; intros n resume s count w h s' count' w' H.
  - injection H as <- <- <- <-. apply steps_done.
  - destruct (run_node C n resume s w) as [[u|e] w1] eqn:Hrun.
    + rewrite (drive_step_ok _ _ _ _ _ _ _ _ _ Hrun) in H.
      apply (steps_next _ _ _ _ _ _ _ _ Hrun).
      destruct (successor n (merge s u)) as [n1|].
      * by eapply IH.
      * injection H as <- <- <- <-. apply steps_done.
    + rewrite (drive_step_raise _ _ _ _ _ _ _ _ _ Hrun) in H.
      destruct e; injection H as <- <- <- <-; apply steps_done.
Qed.

(** C8. The input text ([spec_text]) is immutable once set: no step's
    update holds that key, so after any sequence of step executions, each
    merged into the state, its value is the initial one; in particular
    every call of the driving loop leaves it as it was. *)
Theorem spec_text_immutable (C : collaborators) :
  (forall n resume s w u w',
      run_node C n resume s w = (Ok u, w') -> u !! "spec_text" = None) /\
  (forall s s', steps C s s' -> s' !! "spec_text" = s !! "spec_text") /\
  (forall fuel n resume s count w h s' count' w',
      drive C fuel n resume s count w = (h, s', count', w') ->
      s' !! "spec_text" = s !! "spec_text").
Proof.
  assert (Hsteps : forall s s', steps C s s' ->
                                s' !! "spec_text" = s !! "spec_text").
  { induction 1 as [s|s u s'' n resume w w' Hrun _ IH]; [done|].
    rewrite IH. unfold merge. apply lookup_union_r.
    by eapply node_update_no_spec_text. }
  split; [apply node_update_no_spec_text|]. split; [exact Hsteps|].
  intros fuel n resume s count w h s' count' w' H.
  apply Hsteps. by eapply drive_steps.
Qed.

(** *** The bound on the number of steps is never reached *)

Lemma drive_review_waits C k s count w :
  exists e w', run_node C human_review None s w = (Raise e, w') /\
    drive C (S k) human_review None s count w =
    match e with
    | GraphInterrupt _ => (Suspended human_review, s, count, w')
    | _ => (Crashed human_review e, s, count, w')
    end.
Proof.
  destruct (run_node C human_review None s w) as [r w'] eqn:Hrun.
  pose proof Hrun as Hrun'. cbn [run_node] in Hrun'.
  apply review_suspends in Hrun' as [-> [[key ->]|[-> _]]];
    eexists _, _; (split; [reflexivity|]); by apply drive_step_raise.
Qed.

Lemma drive_create_enough C k resume s count w :
  drive C (S (S k)) create_tickets resume s count w =
  drive C 2 create_tickets resume s count w.
Proof.
  destruct (run_node C create_tickets resume s w) as [[u|e] w1] eqn:Hrun.
  - rewrite !(drive_step_ok _ _ _ _ _ _ _ _ _ Hrun). cbn [successor].
    destruct (drive_review_waits C k (merge s u) (S count) w1)
      as (e & w' & Hr & ->).
    destruct (drive_review_waits C 0 (merge s u) (S count) w1)
      as (e' & w'' & Hr' & ->).
    rewrite Hr in Hr'. by injection Hr' as <- <-.
  - by rewrite !(drive_step_raise _ _ _ _ _ _ _ _ _ Hrun).
Qed.

Lemma drive_analyze_enough C k resume s count w :
  drive C (S (S (S k))) analyze_spec resume s count w =
  drive C 3 analyze_spec resume s count w.
Proof.
  destruct (run_node C analyze_spec resume s w) as [[u|e] w1] eqn:Hrun.
  - rewrite !(drive_step_ok _ _ _ _ _ _ _ _ _ Hrun). cbn [successor].
    by rewrite drive_create_enough.
  - by rewrite !(drive_step_raise _ _ _ _ _ _ _ _ _ Hrun).
Qed.

Lemma drive_save_enough C k resume s count w :
  drive C (S k) save_tickets resume s count w =
  drive C 1 save_tickets resume s count w.
Proof.
  destruct (run_node C save_tickets resume s w) as [[u|e] w1] eqn:Hrun.
  - by rewrite !(drive_step_ok _ _ _ _ _ _ _ _ _ Hrun).
  - by rewrite !(drive_step_raise _ _ _ _ _ _ _ _ _ Hrun).
Qed.

(** Four steps are enough for any call of the driving loop: more fuel
    changes nothing. *)
Lemma drive_enough_fuel C k n resume s count w :
  drive C (4 + k) n resume s count w = drive C 4 n resume s count w.
Proof.
  destruct n.
  - change (4 + k) with (S (S (S (S k)))).
    by rewrite (drive_analyze_enough C (S k)), (drive_analyze_enough C 1).
  - change (4 + k) with (S (S (S (S k)))).
    by rewrite (drive_create_enough C (S (S k))), (drive_create_enough C 2).
  - destruct (run_node C human_review resume s w) as [[u|e] w1] eqn:Hrun.
    + change (4 + k) with (S (S (S (S k)))).
      rewrite !(drive_step_ok _ _ _ _ _ _ _ _ _ Hrun). cbn [successor].
      destruct (router (merge s u)).
      * by rewrite (drive_analyze_enough C k).
      * by rewrite (drive_create_enough C (S k)), (drive_create_enough C 1).
      * destruct (drive_review_waits C (S (S k)) (merge s u) (S count) w1)
          as (e & w' & Hr & ->).
        destruct (drive_review_waits C 2 (merge s u) (S count) w1)
          as (e' & w'' & Hr' & ->).
        rewrite Hr in Hr'. by injection Hr' as <- <-.
      * by rewrite (drive_save_enough C (S (S k))), (drive_save_enough C 2).
    + change (4 + k) with (S (S (S (S k)))).
      by rewrite !(drive_step_raise _ _ _ _ _ _ _ _ _ Hrun).
  - change (4 + k) with (S (S (S (S k)))).
    by rewrite (drive_save_enough C (S (S (S k)))), (drive_save_enough C 3).
Qed.

Lemma drive_halts C n resume s count w :
  fst (fst (fst (drive C recursion_limit n resume s count w))) <> Exhausted.
Proof.
  unfold recursion_limit. rewrite (drive_enough_fuel C 21).
  assert (Hrev : forall s count w,
             fst (fst (fst (drive C 1 human_review None s count w))) <> Exhausted).
  { intros s0 c0 w0. destruct (drive_review_waits C 0 s0 c0 w0) as (e & w' & _ & ->).
    by destruct e. }
  assert (Hcre : forall resume s count w,
             fst (fst (fst (drive C 2 create_tickets resume s count w))) <> Exhausted).
  { intros r0 s0 c0 w0.
    destruct (run_node C create_tickets r0 s0 w0) as [[u|e] w1] eqn:Hrun.
    - rewrite (drive_step_ok _ _ _ _ _ _ _ _ _ Hrun). apply Hrev.
    - rewrite (drive_step_raise _ _ _ _ _ _ _ _ _ Hrun). by destruct e. }
  assert (Hana : forall resume s count w,
             fst (fst (fst (drive C 3 analyze_spec resume s count w))) <> Exhausted).
  { intros r0 s0 c0 w0.
    destruct (run_node C analyze_spec r0 s0 w0) as [[u|e] w1] eqn:Hrun.
    - rewrite (drive_step_ok _ _ _ _ _ _ _ _ _ Hrun). apply Hcre.
    - rewrite (drive_step_raise _ _ _ _ _ _ _ _ _ Hrun). by destruct e. }
  assert (Hsav : forall resume s count w,
             fst (fst (fst (drive C 1 save_tickets resume s count w))) <> Exhausted).
  { intros r0 s0 c0 w0.
    destruct (run_node C save_tickets r0 s0 w0) as [[u|e] w1] eqn:Hrun.
    - by rewrite (drive_step_ok _ _ _ _ _ _ _ _ _ Hrun).
    - rewrite (drive_step_raise _ _ _ _ _ _ _ _ _ Hrun). by destruct e. }
  destruct n.
  - rewrite (drive_analyze_enough C 1). apply Hana.
  - rewrite (drive_create_enough C 2). apply Hcre.
  - destruct (run_node C human_review resume s w) as [[u|e] w1] eqn:Hrun.
    + rewrite (drive_step_ok _ _ _ _ _ _ _ _ _ Hrun). cbn [successor].
      destruct (router (merge s u)).
      * apply Hana.
      * rewrite (drive_create_enough C 1). apply Hcre.
      * destruct (drive_review_waits C 2 (merge s u) (S count) w1)
          as (e & w' & _ & ->). by destruct e.
      * rewrite (drive_save_enough C 2). apply Hsav.
    + rewrite (drive_step_raise _ _ _ _ _ _ _ _ _ Hrun). by destruct e.
  - rewrite (drive_save_enough C 3). apply Hsav.
Qed.

(** ** Runs the executor has paused *)

Lemma settle_suspended_inv h s count r a :
  settle h s count = (r, a) -> status r = PAUSED ->
  exists n, h = Suspended n /\ r = mkRun s PAUSED (Some n) count.
Proof. destruct h; simpl; intros [= <- <-]; try discriminate; eauto. Qed.

Lemma reachable_paused C runs w :
  reachable C runs w ->
  forall run_id r, runs !! run_id = Some r -> paused_at_review r.
Proof.
  induction 1 as [w|runs w id0 initial a runs' w' _ IH Hstart
                    |runs w id0 value a runs' w' _ IH Hres];
    intros run_id r Hr.
  - by rewrite lookup_empty in Hr.
  - unfold start in Hstart. destruct (runs !! id0) as [r0|] eqn:E.
    { injection Hstart as <- <- <-. eauto. }
    destruct (drive C recursion_limit entry_point None initial 0 w)
      as [[[h s] c] w1] eqn:Hd.
    destruct (settle h s c) as [r' ans] eqn:Hset. injection Hstart as <- <- <-.
    destruct (decide (id0 = run_id)) as [->|Hne].
    + rewrite lookup_insert_eq in Hr. injection Hr as <-. intros Hst.
      destruct (settle_suspended_inv _ _ _ _ _ Hset Hst) as (n & -> & ->).
      apply drive_suspended in Hd as (-> & Hado & Hspec).
      simpl. split; [done|]. split; [done|]. apply Hspec. by left.
    + rewrite lookup_insert_ne in Hr by done. eauto.
  - unfold resume in Hres. destruct (runs !! id0) as [r0|] eqn:E.
    2:{ injection Hres as <- <- <-. eauto. }
    pose proof (IH _ _ E) as Hr0.
    destruct (status r0) eqn:Hst0;
      try (injection Hres as <- <- <-; by eauto).
    unfold checkpoint_of in Hres.
    destruct (paused_step r0) as [n0|] eqn:Hp0.
    2:{ injection Hres as <- <- <-. eauto. }
    cbn [cp_paused_step cp_state] in Hres.
    destruct (drive C recursion_limit n0 (Some value) (run_state r0)
                (step_counter r0) w) as [[[h s] c] w1] eqn:Hd.
    destruct (settle h s c) as [r' ans] eqn:Hset. injection Hres as <- <- <-.
    destruct (decide (id0 = run_id)) as [->|Hne].
    + rewrite lookup_insert_eq in Hr. injection Hr as <-. intros Hst.
      destruct (settle_suspended_inv _ _ _ _ _ Hset Hst) as (n & -> & ->).
      apply drive_suspended in Hd as (-> & Hado & Hspec).
      simpl. split; [done|]. split; [done|]. apply Hspec. right.
      by apply Hr0.
    + rewrite lookup_insert_ne in Hr by done. eauto.
Qed.

Lemma resume_paused C run_id value runs w r n :
  runs !! run_id = Some r -> status r = PAUSED -> paused_step r = Some n ->
  resume C run_id value runs w =
  let '(h, state, count, w') :=
    drive C recursion_limit n (Some value) (run_state r) (step_counter r) w in
  let (r', answer) := settle h state count in
  (answer, <[run_id := r']> runs, w').
Proof.
  intros H Hst Hp. unfold resume, checkpoint_of. by rewrite H, Hst, Hp.
Qed.

(** The main program resumes only when [snapshot.next] is non-empty; the
    call then drives the run, and the reply is none of the caller errors
    and never the step bound. *)
Lemma resume_when_next C value runs w n rest a runs' w' :
  snapshot_next thread_id runs = n :: rest ->
  resume C thread_id value runs w = (a, runs', w') ->
  a <> Failure NoSuchRun /\ a <> Failure NotPaused /\
  a <> Failure RecursionLimit.
Proof.
  unfold snapshot_next. intros Hnext Hres.
  destruct (runs !! thread_id) as [r|] eqn:Hr; [|discriminate].
  destruct (status r) eqn:Hst; try discriminate.
  destruct (paused_step r) as [n0|] eqn:Hp; [|discriminate].
  rewrite (resume_paused _ _ _ _ _ _ _ Hr Hst Hp) in Hres.
  pose proof (drive_halts C n0 (Some value) (run_state r) (step_counter r) w)
    as Hh.
  destruct (drive C recursion_limit n0 (Some value) (run_state r)
              (step_counter r) w) as [[[h s] c] w1].
  destruct h; cbn [settle] in Hres; injection Hres as <- <- <-; done.
Qed.

(** ** Approval *)

Lemma resume_approve_from_review C run_id runs r w drafted :
  runs !! run_id = Some r -> status r = PAUSED ->
  paused_step r = Some human_review ->
  run_state r !! "ado_tickets" = Some drafted ->
  exists w' evs,
    resume C run_id "approve" runs w =
    (Reply (reviewed (run_state r) "approve") TERMINATED,
     <[run_id := mkRun (reviewed (run_state r) "approve") TERMINATED None
                       (S (S (step_counter r)))]> runs,
     w') /\
    trace w' = trace w ++ evs /\ count_exports evs = 1.
Proof.
  intros H Hst Hp Hado. rewrite (resume_paused _ _ _ _ _ _ _ H Hst Hp).
  unfold recursion_limit.
  rewrite (drive_step_ok C _ human_review _ _ _ _ _ w
             (review_resumed "approve" _ w (ex_intro _ _ Hado))).
  fold (reviewed (run_state r) "approve").
  cbn [successor]. rewrite router_reviewed.
  change (String.eqb (PyStr.lower "approve") "approve") with true. cbv iota.
  assert (Hado' : reviewed (run_state r) "approve" !! "ado_tickets" = Some drafted)
    by (by rewrite reviewed_other).
  destruct (save_runs C _ drafted w Hado') as (csv & w' & He & Hs).
  rewrite (drive_step_ok C _ save_tickets _ _ _ _ _ _ Hs).
  cbn [successor]. rewrite merge_empty. cbn [settle].
  apply export_frame in He as [(evs & Htr & Hn) _].
  exists w', (EvOpen json_filename :: EvExport drafted :: evs).
  split; [done|]. split.
  - rewrite Htr. simpl. by rewrite <- app_assoc.
  - simpl. by rewrite Hn.
Qed.

(** C4. Resuming, with the value "approve", a run that the executor has
    paused (it is then paused at the review step) brings the run to
    [TERMINATED], the terminal step having no successor, and calls the export
    exactly once. *)
Theorem resume_approve_terminates C runs w run_id r :
  reachable C runs w -> runs !! run_id = Some r -> status r = PAUSED ->
  paused_step r = Some human_review /\
  successor save_tickets (reviewed (run_state r) "approve") = END /\
  exists state' runs' w' evs,
    resume C run_id "approve" runs w = (Reply state' TERMINATED, runs', w') /\
    status <$> runs' !! run_id = Some TERMINATED /\
    trace w' = trace w ++ evs /\ count_exports evs = 1.
Proof.
  intros Hreach H Hst.
  destruct (reachable_paused _ _ _ Hreach _ _ H Hst) as (Hp & [drafted Hado] & _).
  split; [done|]. split; [done|].
  destruct (resume_approve_from_review C run_id runs r w drafted H Hst Hp Hado)
    as (w' & evs & Hres & Htr & Hn).
  eexists _, _, w', evs. split; [exact Hres|]. split; [|done].
  by rewrite lookup_insert_eq.
Qed.

(** ** Feedback *)

Lemma prompt_contains_feedback s spec value :
  s !! "human_feedback" = Some value ->
  PyStr.contains (analysis_prompt s spec) value.
Proof.
  intros H. destruct value as [|c v].
  - exists EmptyString, (analysis_prompt s spec). reflexivity.
  - unfold PyStr.contains, analysis_prompt, feedback_context, state_get.
    rewrite H. cbn [truthy default].
    eexists (nl +:+
      "    You are a Senior Solutions Architect. Analyze this requirement text." +:+ nl +:+
      "    Identify gaps and missing criteria." +:+ nl +:+
      "    " +:+ nl +:+ nl +:+
      "IMPORTANT: The user rejected the previous draft. Fix it based on this feedback: "),
      _.
    rewrite !str_app_assoc. reflexivity.
Qed.

Lemma analyze_runs C s spec w :
  s !! "spec_text" = Some spec ->
  exists r, analyze_requirements_node C s w =
    (r, World (files w) (trace w ++ [EvInvoke Gemini (analysis_prompt s spec)])).
Proof.
  intros H. unfold analyze_requirements_node, getitem, bind, lift, invoke, ret.
  rewrite H. simpl.
  destruct (gemini_model C (trace w) (analysis_prompt s spec)); eauto.
Qed.

Lemma drive_from_analyze C fuel s spec count w h s' count' w' :
  s !! "spec_text" = Some spec ->
  drive C (S fuel) analyze_spec None s count w = (h, s', count', w') ->
  exists evs,
    trace w' = trace w ++ EvInvoke Gemini (analysis_prompt s spec) :: evs.
Proof.
  intros Hspec H. destruct (analyze_runs C s spec w Hspec) as [[u|e] Hrun].
  - rewrite (drive_step_ok C _ analyze_spec _ _ _ _ _ _ Hrun) in H.
    cbn [successor] in H. apply drive_trace_extends in H as [evs Hevs].
    exists evs. rewrite Hevs. simpl. by rewrite <- app_assoc.
  - rewrite (drive_step_raise C _ analyze_spec _ _ _ _ _ _ Hrun) in H.
    exists []. destruct e; by injection H as <- <- <- <-.
Qed.

(** C5, as amended.  Resuming a run that the executor has paused with a
    value that does not equal "approve" up to case routes back to the
    analysis step, and the next thing the run does is to invoke the analysis
    model with a prompt that contains the value as typed. *)
Theorem resume_feedback_reaches_analysis C runs w run_id r value :
  reachable C runs w -> runs !! run_id = Some r -> status r = PAUSED ->
  ~ caseless_eq value "approve" ->
  paused_step r = Some human_review /\
  successor human_review (reviewed (run_state r) value) = Goto analyze_spec /\
  exists spec a runs' w' evs,
    run_state r !! "spec_text" = Some spec /\
    resume C run_id value runs w = (a, runs', w') /\
    trace w' = trace w ++
      EvInvoke Gemini (analysis_prompt (reviewed (run_state r) value) spec) :: evs /\
    PyStr.contains (analysis_prompt (reviewed (run_state r) value) spec) value.
Proof.
  intros Hreach H Hst Hval.
  destruct (reachable_paused _ _ _ Hreach _ _ H Hst) as (Hp & Hado & [spec Hspec]).
  assert (Hlow : String.eqb (PyStr.lower value) "approve" = false).
  { apply String.eqb_neq. intros E. apply Hval.
    by apply (lower_caseless "approve" eq_refl). }
  assert (Hroute : router (reviewed (run_state r) value) = analyze_spec)
    by (by rewrite router_reviewed, Hlow).
  split; [done|]. split; [cbn [successor]; by rewrite Hroute|].
  rewrite (resume_paused _ _ _ _ _ _ _ H Hst Hp). unfold recursion_limit.
  rewrite (drive_step_ok C _ human_review _ _ _ _ _ w
             (review_resumed value _ w Hado)).
  fold (reviewed (run_state r) value). cbn [successor]. rewrite Hroute.
  assert (Hspec' : reviewed (run_state r) value !! "spec_text" = Some spec)
    by (by rewrite reviewed_other).
  destruct (drive C 24 analyze_spec None (reviewed (run_state r) value)
              (S (step_counter r)) w) as [[[h s'] c'] w'] eqn:Hd.
  destruct (drive_from_analyze _ _ _ _ _ _ _ _ _ _ Hspec' Hd) as [evs Hevs].
  destruct (settle h s' c') as [r' ans].
  exists spec, ans, (<[run_id := r']> runs), w', evs.
  split; [done|]. split; [done|]. split; [done|].
  apply prompt_contains_feedback, reviewed_feedback.
Qed.

(** ** The statements at concrete inputs *)

Lemma paused_example_reachable :
  reachable ref_collaborators paused_runs paused_world.
Proof.
  eapply (reach_start _ ∅ empty_world "run-1" {[ "spec_text" := "X" ]}
            (fst (fst paused_example))).
  - apply reach_init.
  - unfold paused_runs, paused_world. fold paused_example.
    by destruct paused_example as [[a r] w].
Qed.

Lemma paused_example_run : paused_runs !! "run-1" = Some paused_run.
Proof. vm_compute. reflexivity. Qed.

Lemma finished_example_run : finished_runs !! "run-1" = Some finished_run.
Proof. vm_compute. reflexivity. Qed.

Lemma router_approve_witness :
  caseless_eq (human_value {[ "human_feedback" := "APPROVE" ]}) "approve" /\
  router {[ "human_feedback" := "APPROVE" ]} = save_tickets /\
  router {[ "human_feedback" := EmptyString ]} = analyze_spec.
Proof.
  assert (H : caseless_eq (human_value {[ "human_feedback" := "APPROVE" ]})
                          "approve").
  { change (caseless_eq "APPROVE" "approve").
    repeat (apply caseless_cons; [right; left; split; reflexivity|]).
    apply caseless_nil. }
  split; [exact H|]. split.
  - exact (proj2 (proj1 (router_approve_iff
                            {[ "human_feedback" := "APPROVE" ]})) H).
  - exact (proj2 (proj2 (router_approve_iff
                            {[ "human_feedback" := EmptyString ]})) eq_refl).
Defined.

Lemma merge_witness :
  let s : gmap string string :=
    {[ "spec_text" := "X"; "human_feedback" := "shorter" ]} in
  let u : gmap string string := {[ "human_feedback" := "approve" ]} in
  u !! "human_feedback" = Some "approve" /\ u !! "spec_text" = None /\
  merge s u !! "human_feedback" = Some "approve" /\
  merge s u !! "spec_text" = s !! "spec_text".
Proof.
  intros s u.
  assert (H1 : u !! "human_feedback" = Some "approve") by reflexivity.
  assert (H2 : u !! "spec_text" = None) by reflexivity.
  split; [exact H1|]. split; [exact H2|]. split.
  - exact (proj1 (merge_overwrites_and_preserves s u) _ _ H1).
  - exact (proj1 (proj2 (merge_overwrites_and_preserves s u)) _ H2).
Defined.

Lemma export_fallback_witness :
  clean prose = Ok prose /\
  json_loads ref_collaborators prose = Raise JSONDecodeError /\
  export_to_ado_csv ref_collaborators prose default_output_file empty_world
    = (Ok None, fell_back prose empty_world) /\
  files (fell_back prose empty_world) !! fallback_file = Some (TextFile prose).
Proof.
  assert (H1 : clean prose = Ok prose) by (vm_compute; reflexivity).
  assert (H2 : json_loads ref_collaborators prose = Raise JSONDecodeError)
    by (vm_compute; reflexivity).
  split; [exact H1|]. split; [exact H2|].
  destruct (export_fallback_on_decode_error ref_collaborators prose prose
              default_output_file empty_world H1 H2) as (He & Hf & _).
  split; [exact He|exact Hf].
Defined.

(** C3, as first stated, fails: the text "42" is JSON but not a sequence
    of records, and the export returns [None] without writing the fallback
    file. *)
Lemma export_non_records_no_fallback :
  (forall items, ~ decodes_to_records ref_collaborators "42" items) /\
  exists w',
    export_to_ado_csv ref_collaborators "42" default_output_file empty_world
      = (Ok None, w') /\
    files w' !! fallback_file = None /\
    files w' !! default_output_file = Some (CsvFile [header_row]).
Proof.
  split.
  - intros items (c & Hc & Hl & _). vm_compute in Hc. injection Hc as <-.
    vm_compute in Hl. discriminate.
  - eexists. split; [vm_compute; reflexivity|].
    split; vm_compute; reflexivity.
Qed.

(** C7, as first stated, fails: [surrogate_tickets] decodes to three
    well-formed records, yet the export returns [None] and leaves one record
    in the file, the first: the second cannot be encoded. *)
Lemma export_three_records_unencodable :
  clean surrogate_tickets = Ok surrogate_tickets /\
  json_loads ref_collaborators surrogate_tickets
    = Ok (JArray surrogate_records) /\
  length surrogate_records = 3 /\
  forallb well_formed_record surrogate_records = true /\
  exists w' first,
    export_to_ado_csv ref_collaborators surrogate_tickets default_output_file
      empty_world = (Ok None, w') /\
    surrogate_records !! 0 = Some first /\
    files w' !! default_output_file
      = Some (CsvFile [header_row; cells_of first]).
Proof.
  split; [vm_compute; reflexivity|].
  split; [vm_compute; reflexivity|].
  split; [reflexivity|].
  split; [vm_compute; reflexivity|].
  do 2 eexists. split; [vm_compute; reflexivity|].
  split; vm_compute; reflexivity.
Qed.

Lemma export_three_records_witness :
  clean three_tickets = Ok three_tickets /\
  json_loads ref_collaborators three_tickets = Ok (JArray three_records) /\
  length three_records = 3 /\
  forallb well_formed_record three_records = true /\
  forallb row_encodable three_records = true /\
  exists rows,
    export_to_ado_csv ref_collaborators three_tickets default_output_file
      empty_world
    = (Ok (Some default_output_file),
       exported three_tickets default_output_file rows empty_world) /\
    length rows = 3.
Proof.
  assert (H1 : clean three_tickets = Ok three_tickets)
    by (vm_compute; reflexivity).
  assert (H2 : json_loads ref_collaborators three_tickets
               = Ok (JArray three_records)) by (vm_compute; reflexivity).
  assert (H3 : length three_records = 3) by reflexivity.
  assert (H4 : forallb well_formed_record three_records = true)
    by (vm_compute; reflexivity).
  assert (H5 : forallb row_encodable three_records = true)
    by (vm_compute; reflexivity).
  repeat (split; [assumption|]).
  destruct (export_three_records ref_collaborators three_tickets three_tickets
              three_records default_output_file empty_world H1 H2 H3 H4 H5)
    as (rows & He & _ & Hl & _).
  exists rows. split; [exact He|exact Hl].
Defined.

(** C9, as first stated, fails: the one record of [surrogate_title] lacks
    [Work Item Type], and it is not written, with that default or
    otherwise: its title cannot be encoded, the export returns [None] and
    the file holds the header alone. *)
Lemma export_record_not_written :
  clean surrogate_title = Ok surrogate_title /\
  json_loads ref_collaborators surrogate_title
    = Ok (JArray [JObject surrogate_title_record]) /\
  member (unicode "Work Item Type") surrogate_title_record = None /\
  exists w',
    export_to_ado_csv ref_collaborators surrogate_title default_output_file
      empty_world = (Ok None, w') /\
    files w' !! default_output_file = Some (CsvFile [header_row]).
Proof.
  split; [vm_compute; reflexivity|].
  split; [vm_compute; reflexivity|].
  split; [reflexivity|].
  eexists. split; vm_compute; reflexivity.
Qed.

Lemma export_defaults_witness :
  clean sparse_tickets = Ok sparse_tickets /\
  json_loads ref_collaborators sparse_tickets = Ok (JArray sparse_records) /\
  forallb is_record sparse_records = true /\
  forallb row_encodable sparse_records = true /\
  exists rows row,
    export_to_ado_csv ref_collaborators sparse_tickets default_output_file
      empty_world
    = (Ok (Some default_output_file),
       exported sparse_tickets default_output_file rows empty_world) /\
    rows !! 1 = Some row /\
    row !! 0 = Some (jstr "User Story") /\
    row !! 1 = Some (JString []) /\
    row !! 4 = Some (jstr "2").
Proof.
  assert (H1 : clean sparse_tickets = Ok sparse_tickets)
    by (vm_compute; reflexivity).
  assert (H2 : json_loads ref_collaborators sparse_tickets
               = Ok (JArray sparse_records)) by (vm_compute; reflexivity).
  assert (H3 : forallb is_record sparse_records = true) by reflexivity.
  assert (H4 : forallb row_encodable sparse_records = true)
    by (vm_compute; reflexivity).
  repeat (split; [assumption|]).
  destruct (export_defaults_for_missing_fields ref_collaborators sparse_tickets
              sparse_tickets sparse_records default_output_file empty_world
              H1 H2 H3 H4) as (rows & He & _ & Hrows).
  destruct (Hrows 1 [] eq_refl) as (row & Hr & R0 & R1 & _ & _ & R4).
  exists rows, row. split; [exact He|]. split; [exact Hr|].
  split; [exact (proj1 R0 eq_refl)|].
  split; [exact (proj1 R1 eq_refl)|exact (proj1 R4 eq_refl)].
Defined.

Lemma save_writes_json_witness :
  let state : gmap string string := {[ "ado_tickets" := fenced_draft ]} in
  state !! "ado_tickets" = Some fenced_draft /\
  exists w',
    save_to_file_node ref_collaborators state empty_world = (Ok ∅, w') /\
    files w' !! json_filename = Some (TextFile "[]").
Proof.
  intros state.
  assert (H : state !! "ado_tickets" = Some fenced_draft) by reflexivity.
  split; [exact H|].
  destruct (save_writes_json_before_export ref_collaborators state fenced_draft
              empty_world H) as (csv & w' & evs & _ & Hs & _ & Hf & _).
  exists w'. split; [exact Hs|exact Hf].
Defined.

Lemma resume_approve_witness :
  reachable ref_collaborators paused_runs paused_world /\
  paused_runs !! "run-1" = Some paused_run /\
  status paused_run = PAUSED /\
  exists state' runs' w' evs,
    resume ref_collaborators "run-1" "approve" paused_runs paused_world
      = (Reply state' TERMINATED, runs', w') /\
    status <$> runs' !! "run-1" = Some TERMINATED /\
    trace w' = trace paused_world ++ evs /\ count_exports evs = 1.
Proof.
  split; [exact paused_example_reachable|].
  split; [exact paused_example_run|]. split; [reflexivity|].
  exact (proj2 (proj2 (resume_approve_terminates ref_collaborators paused_runs
           paused_world "run-1" paused_run paused_example_reachable
           paused_example_run eq_refl))).
Defined.

Lemma feedback_is_not_approval : ~ caseless_eq "make it shorter" "approve".
Proof.
  intros H. apply (lower_caseless "approve" eq_refl) in H. discriminate H.
Qed.

Lemma resume_feedback_witness :
  reachable ref_collaborators paused_runs paused_world /\
  paused_runs !! "run-1" = Some paused_run /\
  status paused_run = PAUSED /\
  ~ caseless_eq "make it shorter" "approve" /\
  successor human_review (reviewed paused_state "make it shorter")
    = Goto analyze_spec /\
  exists spec a runs' w' evs,
    resume ref_collaborators "run-1" "make it shorter" paused_runs paused_world
      = (a, runs', w') /\
    trace w' = trace paused_world ++
      EvInvoke Gemini
        (analysis_prompt (reviewed paused_state "make it shorter") spec) :: evs /\
    PyStr.contains
      (analysis_prompt (reviewed paused_state "make it shorter") spec)
      "make it shorter".
Proof.
  split; [exact paused_example_reachable|].
  split; [exact paused_example_run|]. split; [reflexivity|].
  split; [exact feedback_is_not_approval|].
  destruct (resume_feedback_reaches_analysis ref_collaborators paused_runs
              paused_world "run-1" paused_run "make it shorter"
              paused_example_reachable paused_example_run eq_refl
              feedback_is_not_approval)
    as (_ & Hroute & spec & a & runs' & w' & evs & _ & Hres & Htr & Hin).
  split; [exact Hroute|].
  exists spec, a, runs', w', evs. split; [exact Hres|]. split; [exact Htr|exact Hin].
Defined.

(** C5, as first stated, fails: "Approve" is a value other than "approve",
    yet resuming with it routes to the terminal step, the run terminates, and
    no model is invoked. *)
Lemma resume_capitalised_approve_saves :
  "Approve" <> "approve" /\
  paused_runs !! "run-1" = Some paused_run /\
  successor human_review (reviewed paused_state "Approve") = Goto save_tickets /\
  exists state' runs' w',
    resume ref_collaborators "run-1" "Approve" paused_runs paused_world
      = (Reply state' TERMINATED, runs', w') /\
    trace w' = trace paused_world ++
      [EvOpen json_filename; EvExport three_tickets; EvOpen default_output_file].
Proof.
  split; [discriminate|]. split; [exact paused_example_run|].
  split; [vm_compute; reflexivity|].
  eexists _, _, _. split; vm_compute; reflexivity.
Qed.

Lemma resume_not_paused_witness :
  finished_runs !! "run-2" = None /\
  finished_runs !! "run-1" = Some finished_run /\
  status finished_run = TERMINATED /\
  resume ref_collaborators "run-2" "approve" finished_runs finished_world
    = (Failure NoSuchRun, finished_runs, finished_world) /\
  resume ref_collaborators "run-1" "approve" finished_runs finished_world
    = (Failure NotPaused, finished_runs, finished_world).
Proof.
  assert (H1 : finished_runs !! "run-2" = None) by (vm_compute; reflexivity).
  split; [exact H1|]. split; [exact finished_example_run|].
  split; [reflexivity|]. split.
  - exact (proj1 (resume_not_paused ref_collaborators "run-2" "approve"
                    finished_runs finished_world) H1).
  - exact (proj2 (resume_not_paused ref_collaborators "run-1" "approve"
                    finished_runs finished_world) finished_run
                 finished_example_run (or_intror eq_refl)).
Defined.

Lemma spec_text_immutable_witness :
  let s0 : gmap string string := {[ "spec_text" := "X" ]} in
  let s1 := merge s0 {[ "analysis_gaps" := "No error states are described." ]} in
  steps ref_collaborators s0 s1 /\ s1 !! "spec_text" = s0 !! "spec_text".
Proof.
  intros s0 s1.
  assert (H : steps ref_collaborators s0 s1).
  { eapply (steps_next _ s0 {[ "analysis_gaps" := "No error states are described." ]}
              s1 analyze_spec None empty_world).
    - vm_compute. reflexivity.
    - apply steps_done. }
  split; [exact H|].
  exact (proj1 (proj2 (spec_text_immutable ref_collaborators)) s0 s1 H).
Defined.


(** * Further properties of the program *)

(** ** The nodes, one by one *)

Lemma prompt_contains_spec s spec :
  PyStr.contains (analysis_prompt s spec) spec.
Proof.
  unfold PyStr.contains, analysis_prompt.
  eexists (nl +:+
     "    You are a Senior Solutions Architect. Analyze this requirement text." +:+ nl +:+
     "    Identify gaps and missing criteria." +:+ nl +:+
     "    " +:+ feedback_context s +:+ nl +:+
     "    " +:+ nl +:+
     "    REQUIREMENT TEXT:" +:+ nl +:+
     "    "), _.
  rewrite !str_app_assoc. reflexivity.
Qed.

(** The analysis step (lines 49-67).  It writes no file.  Without the input
    text it raises [KeyError] before any model is called.  With it, it calls
    the analysis model exactly once; the prompt contains the input text, and
    when the feedback is missing or empty it is the prompt of a first pass.
    A returned update holds the model's answer under [analysis_gaps] and
    nothing else. *)
Theorem analyze_node_behaviour C s w r w' :
  analyze_requirements_node C s w = (r, w') ->
  files w' = files w /\
  (s !! "spec_text" = None -> r = Raise (KeyError "spec_text") /\ w' = w) /\
  (forall spec, s !! "spec_text" = Some spec ->
     trace w' = trace w ++ [EvInvoke Gemini (analysis_prompt s spec)] /\
     PyStr.contains (analysis_prompt s spec) spec /\
     (truthy (s !! "human_feedback") = false ->
      analysis_prompt s spec = analysis_prompt ∅ spec) /\
     r = match gemini_model C (trace w) (analysis_prompt s spec) with
         | Some answer => Ok {[ "analysis_gaps" := answer ]}
         | None => Raise CollaboratorFailure
         end).
Proof.
  unfold analyze_requirements_node, getitem, bind, lift, invoke, ret, raise.
  destruct (s !! "spec_text") as [spec|] eqn:Hs; simpl.
  - intros H. split; [|split; [discriminate|]].
    + destruct (gemini_model C (trace w) (analysis_prompt s spec));
        by injection H as <- <-.
    + intros spec' [= <-]. split.
      { destruct (gemini_model C (trace w) (analysis_prompt s spec));
          by injection H as <- <-. }
      split; [apply prompt_contains_spec|]. split.
      { intros Hf. unfold analysis_prompt, feedback_context. by rewrite Hf. }
      destruct (gemini_model C (trace w) (analysis_prompt s spec));
        by injection H as <- <-.
  - intros [= <- <-]. split; [done|]. split; [done|discriminate].
Qed.

Lemma drafting_prompt_contains spec analysis :
  PyStr.contains (drafting_prompt spec analysis) spec /\
  PyStr.contains (drafting_prompt spec analysis) analysis.
Proof.
  unfold PyStr.contains, drafting_prompt. split.
  - eexists (nl +:+
      "    You are a Technical Product Owner." +:+ nl +:+
      "    Based on the original request and the Architect's gap analysis below," +:+ nl +:+
      "    write 3-5 structured Azure DevOps Work Items." +:+ nl +:+
      nl +:+
      "    Return ONLY a valid JSON array. Each work item must have these exact fields:" +:+ nl +:+
      "    - " +:+ q "Work Item Type" +:+ ": Must be one of: " +:+ q "User Story" +:+ ", "
        +:+ q "Task" +:+ ", " +:+ q "Bug" +:+ ", " +:+ q "Feature" +:+ nl +:+
      "    - " +:+ q "Title" +:+ ": A clear, concise title (max 100 characters)" +:+ nl +:+
      "    - " +:+ q "Description" +:+ ": Detailed description of the work item" +:+ nl +:+
      "    - " +:+ q "Acceptance Criteria" +:+ ": Bulleted list of criteria (use "
        +:+ q "- " +:+ " for bullets)" +:+ nl +:+
      "    - " +:+ q "Priority" +:+ ": Must be one of: " +:+ q "1" +:+ ", " +:+ q "2"
        +:+ ", " +:+ q "3" +:+ ", " +:+ q "4" +:+ nl +:+
      nl +:+
      "    ORIGINAL REQUEST:" +:+ nl +:+
      "    "), _.
    rewrite !str_app_assoc. reflexivity.
  - eexists (nl +:+
      "    You are a Technical Product Owner." +:+ nl +:+
      "    Based on the original request and the Architect's gap analysis below," +:+ nl +:+
      "    write 3-5 structured Azure DevOps Work Items." +:+ nl +:+
      nl +:+
      "    Return ONLY a valid JSON array. Each work item must have these exact fields:" +:+ nl +:+
      "    - " +:+ q "Work Item Type" +:+ ": Must be one of: " +:+ q "User Story" +:+ ", "
        +:+ q "Task" +:+ ", " +:+ q "Bug" +:+ ", " +:+ q "Feature" +:+ nl +:+
      "    - " +:+ q "Title" +:+ ": A clear, concise title (max 100 characters)" +:+ nl +:+
      "    - " +:+ q "Description" +:+ ": Detailed description of the work item" +:+ nl +:+
      "    - " +:+ q "Acceptance Criteria" +:+ ": Bulleted list of criteria (use "
        +:+ q "- " +:+ " for bullets)" +:+ nl +:+
      "    - " +:+ q "Priority" +:+ ": Must be one of: " +:+ q "1" +:+ ", " +:+ q "2"
        +:+ ", " +:+ q "3" +:+ ", " +:+ q "4" +:+ nl +:+
      nl +:+
      "    ORIGINAL REQUEST:" +:+ nl +:+
      "    " +:+ spec +:+ nl +:+
      nl +:+
      "    ARCHITECT'S ANALYSIS:" +:+ nl +:+
      "    "), _.
    rewrite !str_app_assoc. reflexivity.
Qed.

(** The drafting step (lines 70-97).  It writes no file.  It needs the
    analysis and the input text and looks for the analysis first: without
    the analysis it raises [KeyError('analysis_gaps')], with the analysis
    but without the input text [KeyError('spec_text')], in both cases
    before any model is called.  With both it calls the drafting model
    exactly once, with a prompt that contains both texts, and a returned
    update holds the model's answer under [ado_tickets] and nothing else. *)
Theorem draft_node_behaviour C s w r w' :
  draft_tickets_node C s w = (r, w') ->
  files w' = files w /\
  (s !! "analysis_gaps" = None ->
   r = Raise (KeyError "analysis_gaps") /\ w' = w) /\
  (is_Some (s !! "analysis_gaps") -> s !! "spec_text" = None ->
   r = Raise (KeyError "spec_text") /\ w' = w) /\
  (forall analysis spec,
     s !! "analysis_gaps" = Some analysis -> s !! "spec_text" = Some spec ->
     trace w' = trace w ++ [EvInvoke Azure (drafting_prompt spec analysis)] /\
     PyStr.contains (drafting_prompt spec analysis) spec /\
     PyStr.contains (drafting_prompt spec analysis) analysis /\
     r = match azure_model C (trace w) (drafting_prompt spec analysis) with
         | Some answer => Ok {[ "ado_tickets" := answer ]}
         | None => Raise CollaboratorFailure
         end).
Proof.
  unfold draft_tickets_node, getitem, bind, lift, invoke, ret, raise.
  destruct (s !! "analysis_gaps") as [a|] eqn:Ha; simpl.
  2:{ intros [= <- <-]. split; [done|]. split; [done|].
      split; [by intros [? ?]|discriminate]. }
  destruct (s !! "spec_text") as [spec|] eqn:Hs; simpl.
  2:{ intros [= <- <-]. split; [done|]. split; [discriminate|].
      split; [done|discriminate]. }
  intros H. split; [|split; [discriminate|split; [discriminate|]]].
  - destruct (azure_model C (trace w) (drafting_prompt spec a));
      by injection H as <- <-.
  - intros a' spec' [= <-] [= <-].
    destruct (drafting_prompt_contains spec a) as [H1 H2].
    split; [|split; [done|split; [done|]]];
      destruct (azure_model C (trace w) (drafting_prompt spec a));
      by injection H as <- <-.
Qed.

(** The review step (lines 100-112).  It never changes the world.  It
    needs the draft, also when it is resumed: without one it raises
    [KeyError('ado_tickets')].  With a draft and no resume value it
    suspends, whatever else the state holds, and so returns no update; with
    a resume value it returns that value, as typed, under [human_feedback]
    and nothing else. *)
Theorem review_node_behaviour resume s w r w' :
  human_review_node resume s w = (r, w') ->
  w' = w /\
  (s !! "ado_tickets" = None -> r = Raise (KeyError "ado_tickets")) /\
  (is_Some (s !! "ado_tickets") ->
   r = match resume with
       | None => Raise (GraphInterrupt review_prompt)
       | Some value => Ok {[ "human_feedback" := value ]}
       end).
Proof.
  unfold human_review_node, getitem, bind, lift, interrupt, ret, raise.
  destruct (s !! "ado_tickets") as [t|]; simpl.
  - destruct resume; intros [= <- <-]; (split; [done|]);
      (split; [discriminate|done]).
  - intros [= <- <-]. split; [done|]. split; [done|]. by intros [? ?].
Qed.

(** The terminal step (lines 181-206).  Without a draft it raises
    [KeyError('ado_tickets')] and writes nothing.  With a draft it returns
    the empty update and calls the export exactly once, on the draft as
    drafted (fences included); and in no case does it touch a file other than
    the JSON file, the CSV file and the fallback file. *)
Theorem save_node_behaviour C s w r w' :
  save_to_file_node C s w = (r, w') ->
  (s !! "ado_tickets" = None ->
   r = Raise (KeyError "ado_tickets") /\ w' = w) /\
  (forall drafted, s !! "ado_tickets" = Some drafted ->
     r = Ok ∅ /\
     exists evs, trace w' = trace w ++
                   EvOpen json_filename :: EvExport drafted :: evs /\
                 count_exports evs = 0) /\
  (forall path, ~ is_artifact path -> files w' !! path = files w !! path).
Proof.
  intros H. destruct (s !! "ado_tickets") as [drafted|] eqn:Hd.
  - destruct (save_runs C s drafted w Hd) as (csv & w1 & He & Hs).
    rewrite Hs in H. injection H as <- <-.
    apply export_frame in He as [(evs & Htr & Hn) Hfr].
    split; [discriminate|]. split.
    + intros d [= <-]. split; [done|]. exists evs. split; [|done].
      rewrite Htr. simpl. by rewrite <- app_assoc.
    + intros path Hp. rewrite Hfr.
      * apply lookup_insert_ne. intros E. apply Hp. by left.
      * intros E. apply Hp. right. by left.
      * intros E. apply Hp. right. by right.
  - unfold save_to_file_node, getitem, bind, lift, raise in H. rewrite Hd in H.
    injection H as <- <-. split; [done|]. split; [discriminate|done].
Qed.

(** ** The export, case by case *)

Lemma write_tickets_run path items :
  forall w rows0,
    files w !! path = Some (CsvFile rows0) ->
    exists r,
      write_tickets path items w =
      (r, World (<[path := CsvFile (rows0 ++ map cells_of (written_prefix items))]>
                   (files w))
                (trace w)) /\
      if forallb writable items then r = Ok tt
      else r = Raise AttributeError \/ r = Raise UnicodeEncodeError.
Proof.
  induction items as [|ticket rest IH]; intros w rows0 Hfile.
  - exists (Ok tt). cbn [written_prefix map forallb write_tickets ret].
    rewrite app_nil_r, insert_id by done. by destruct w.
  - cbn [forallb written_prefix].
    destruct (is_record ticket) eqn:Ht.
    + destruct ticket; try discriminate.
      rewrite write_tickets_cons_record.
      destruct (row_encodable (JObject members)) eqn:He.
      * assert (Hw : writable (JObject members) = true)
          by (unfold writable; by rewrite He).
        rewrite Hw. cbn [andb map].
        rewrite (alter_present _ _ _ _ Hfile).
        destruct (IH (World (<[path := CsvFile (rows0 ++ [cells_of (JObject members)])]>
                               (files w)) (trace w))
                     (rows0 ++ [cells_of (JObject members)]))
          as (r & Hr & Hres); [apply lookup_insert_eq|].
        exists r. split; [|done]. cbn [append_row]. rewrite Hr. cbn [files trace].
        by rewrite insert_insert_eq, <- app_assoc.
      * assert (Hw : writable (JObject members) = false)
          by (unfold writable; by rewrite He).
        rewrite Hw. cbn [andb map].
        exists (Raise UnicodeEncodeError). split; [|by right].
        rewrite app_nil_r, insert_id by done. by destruct w.
    + assert (Hw : writable ticket = false)
        by (unfold writable; by rewrite Ht).
      rewrite Hw. cbn [andb map].
      exists (Raise AttributeError). split; [|by left].
      rewrite (write_tickets_cons_other _ _ _ _ Ht).
      rewrite app_nil_r, insert_id by done. by destruct w.
Qed.

Lemma export_iterated C t c v items out w :
  clean t = Ok c -> json_loads C c = Ok v -> py_iter v = Ok items ->
  export_to_ado_csv C t out w =
  (Ok (if forallb writable items then Some out else None),
   exported t out (map cells_of (written_prefix items)) w).
Proof.
  intros Hc Hl Hi. rewrite export_entered. unfold try_except.
  rewrite (export_try_loaded _ _ _ _ _ _ Hc Hl), Hi.
  match goal with
  | |- context [write_tickets out items ?w0] =>
      destruct (write_tickets_run out items w0 [header_row])
        as (r & -> & Hres); [apply lookup_insert_eq|]
  end.
  unfold exported, opened. cbn [files trace].
  rewrite insert_insert_eq, <- app_assoc.
  destruct (forallb writable items).
  - by rewrite Hres.
  - by destruct Hres as [-> | ->].
Qed.

(** The export (lines 115-178) always returns to its caller, with the name
    of the output file or with [None].  One call is one entry in the trace,
    and no file other than the output file and the fallback file is
    touched. *)
Theorem export_contained C t out w :
  exists o w' evs,
    export_to_ado_csv C t out w = (Ok o, w') /\
    (o = None \/ o = Some out) /\
    trace w' = trace w ++ EvExport t :: evs /\ count_exports evs = 0 /\
    (forall path, path <> out -> path <> fallback_file ->
                  files w' !! path = files w !! path).
Proof.
  destruct (export_never_raises C t out w) as (o & w' & He).
  destruct (export_frame _ _ _ _ _ _ He) as [(evs & Htr & Hn) Hfr].
  exists o, w', evs. split; [done|]. split; [|done].
  destruct o as [f|]; [|by left]. right.
  by destruct (export_success_inv _ _ _ _ _ _ He) as [-> _].
Qed.

(** A decoded list is written row by row until the first item that cannot
    be written: one that is not a dict, or a dict with a surrogate in a
    string to be written.  The rows of the tickets before it stay in the
    file, under the header, and the export returns [None]; it returns the
    file name exactly when every item can be written.  The fallback file is
    not written. *)
Theorem export_list_rows C t c items out w :
  clean t = Ok c -> json_loads C c = Ok (JArray items) ->
  export_to_ado_csv C t out w =
  (Ok (if forallb writable items then Some out else None),
   exported t out (map cells_of (written_prefix items)) w) /\
  files (exported t out (map cells_of (written_prefix items)) w) !! out
    = Some (CsvFile (header_row :: map cells_of (written_prefix items))) /\
  (out <> fallback_file ->
   files (exported t out (map cells_of (written_prefix items)) w)
     !! fallback_file = files w !! fallback_file) /\
  length (written_prefix items) <= length items.
Proof.
  intros Hc Hl. split; [by eapply export_iterated|].
  split; [apply lookup_insert_eq|]. split.
  - intros Hne. by apply lookup_insert_ne.
  - clear. induction items as [|x xs IH]; simpl; [lia|].
    destruct (writable x); simpl; lia.
Qed.

(** A decoded value that is not a list leaves the output file with the
    header alone, and the fallback file as it was.  The export then returns
    [None], except for the empty dict and the empty string: iterating those
    yields nothing, and the export reports success. *)
Theorem export_not_a_list C t c v out w :
  clean t = Ok c -> json_loads C c = Ok v -> not_a_list v = true ->
  export_to_ado_csv C t out w =
  (Ok (if yields_nothing v then Some out else None), exported t out [] w) /\
  files (exported t out [] w) !! out = Some (CsvFile [header_row]) /\
  (out <> fallback_file ->
   files (exported t out [] w) !! fallback_file = files w !! fallback_file).
Proof.
  intros Hc Hl Hv.
  split; [|split; [apply lookup_insert_eq|intros Hne; by apply lookup_insert_ne]].
  destruct v as [| b | lit | s | items | members]; try discriminate.
  1-3: rewrite export_entered; unfold try_except;
       rewrite (export_try_loaded _ _ _ _ _ _ Hc Hl); cbn [py_iter];
       unfold exported, opened; cbn [export_except ret files trace yields_nothing];
       by rewrite <- app_assoc.
  - rewrite (export_iterated _ _ _ _ _ _ _ Hc Hl eq_refl).
    destruct s as [|ch s]; [done|].
    unfold chars. by cbn [map forallb written_prefix writable is_record andb
                          yields_nothing].
  - rewrite (export_iterated _ _ _ _ _ _ _ Hc Hl eq_refl).
    destruct members as [|[k x] ms]; [done|].
    by cbn [map forallb written_prefix writable is_record andb
            yields_nothing].
Qed.

(** The row built from a ticket (lines 155-161) has exactly the header's
    fields, in the header's order, so the dictionary writer never rejects
    it; building it changes nothing, and it fails, with [AttributeError],
    exactly for a ticket that is not a dict. *)
Theorem ticket_row_matches_header ticket w :
  exists r, ticket_row ticket w = (r, w) /\
    match r with
    | Ok rowdict =>
        is_record ticket = true /\
        map fst rowdict = fieldnames /\
        DictWriter.dict_to_list fieldnames rowdict = Ok (map snd rowdict) /\
        map snd rowdict = cells_of ticket
    | Raise e => is_record ticket = false /\ e = AttributeError
    end.
Proof.
  destruct ticket; eexists; (split; [reflexivity|]); cbv beta iota; try done.
Qed.

(** ** Nothing is saved without approval *)

Lemma count_exports_app evs evs' :
  count_exports (evs ++ evs') = count_exports evs + count_exports evs'.
Proof. induction evs as [|e evs IH]; simpl; [done|]. rewrite IH. lia. Qed.

Lemma count_invokes_app m evs evs' :
  count_invokes m (evs ++ evs') = count_invokes m evs + count_invokes m evs'.
Proof.
  induction evs as [|e evs IH]; simpl; [done|].
  destruct e as [[] p| |]; rewrite ?IH; lia.
Qed.

(** The steps before the terminal one write no file and export nothing. *)
Lemma node_quiet C n resume s w r w' :
  n <> save_tickets -> run_node C n resume s w = (r, w') ->
  files w' = files w /\ count_exports (trace w') = count_exports (trace w).
Proof.
  intros Hn. destruct n; [| | |done]; cbn [run_node].
  - unfold analyze_requirements_node, invoke, bind, lift, ret, raise.
    destruct (getitem s "spec_text"); simpl.
    + destruct (gemini_model C (trace w) _); intros [= <- <-]; simpl;
        rewrite count_exports_app; simpl; split; (done || lia).
    + by intros [= <- <-].
  - unfold draft_tickets_node, invoke, bind, lift, ret, raise.
    destruct (getitem s "analysis_gaps"); simpl; [|by intros [= <- <-]].
    destruct (getitem s "spec_text"); simpl; [|by intros [= <- <-]].
    destruct (azure_model C (trace w) _); intros [= <- <-]; simpl;
      rewrite count_exports_app; simpl; split; (done || lia).
  - unfold human_review_node, getitem, bind, lift, interrupt, ret, raise.
    destruct (s !! "ado_tickets"); simpl; [destruct resume|];
      by intros [= <- <-].
Qed.

(** A call of the driving loop that does not begin at the terminal step,
    and is not given an approving value, writes no file, exports nothing and
    does not complete the run. *)
Lemma drive_quiet C fuel :
  forall n resume s count w h s' count' w',
    n <> save_tickets ->
    (forall v, resume = Some v -> approves v = false) ->
    drive C fuel n resume s count w = (h, s', count', w') ->
    files w' = files w /\
    count_exports (trace w') = count_exports (trace w) /\
    h <> Completed.
Proof.
  induction fuel as [|fuel IH];
    intros n resume s count w h s' count' w' Hn Hres H.
  - by injection H as <- <- <- <-.
  - destruct (run_node C n resume s w) as [[u|e] w1] eqn:Hrun;
      destruct (node_quiet _ _ _ _ _ _ _ Hn Hrun) as [Hf Hx].
    + rewrite (drive_step_ok _ _ _ _ _ _ _ _ _ Hrun) in H.
      assert (Hnext : exists n1, successor n (merge s u) = Goto n1 /\
                                 n1 <> save_tickets).
      { destruct n; cbn [successor]; [by eexists|by eexists| |done].
        cbn [run_node] in Hrun.
        apply review_update in Hrun as (v & -> & -> & _ & _).
        fold (reviewed s v). rewrite router_reviewed.
        fold (approves v). rewrite (Hres v eq_refl). by eexists. }
      destruct Hnext as (n1 & Hsucc & Hn1). rewrite Hsucc in H.
      apply IH in H as (Hf' & Hx' & Hh); [|done|discriminate].
      by rewrite Hf', Hx'.
    + rewrite (drive_step_raise _ _ _ _ _ _ _ _ _ Hrun) in H.
      destruct e; by injection H as <- <- <- <-.
Qed.

Lemma resume_loop_quiet C inputs :
  forall runs w r n,
    runs !! thread_id = Some r -> status r = PAUSED ->
    paused_step r = Some n -> n <> save_tickets ->
    none_approves inputs = true ->
    exists e runs' w',
      resume_loop C inputs runs w = (Raise e, runs', w') /\
      files w' = files w /\
      count_exports (trace w') = count_exports (trace w) /\
      (forall r', runs' !! thread_id = Some r' -> status r' <> TERMINATED).
Proof.
  induction inputs as [|v rest IH]; intros runs w r n Hr Hst Hp Hn Hall.
  - exists EOFError, runs, w. cbn [resume_loop]. unfold snapshot_next.
    rewrite Hr, Hst, Hp. split; [done|]. split; [done|]. split; [done|].
    intros r' [= <-]. by rewrite Hst.
  - cbn [none_approves forallb] in Hall.
    apply andb_true_iff in Hall as [Hv Hrest]. apply negb_true_iff in Hv.
    cbn [resume_loop]. unfold snapshot_next. rewrite Hr, Hst, Hp.
    rewrite (resume_paused _ _ _ _ _ _ _ Hr Hst Hp).
    destruct (drive C recursion_limit n (Some v) (run_state r)
                (step_counter r) w) as [[[h s'] c'] w1] eqn:Hd.
    pose proof Hd as Hd'.
    apply drive_quiet in Hd' as (Hf & Hx & Hh); [|done|by intros ? [= <-]].
    destruct h as [n'| |n' e|]; cbn [settle]; [|done| |].
    + apply drive_suspended in Hd as (-> & _ & _).
      destruct (IH (<[thread_id := mkRun s' PAUSED (Some human_review) c']> runs)
                  w1 (mkRun s' PAUSED (Some human_review) c') human_review)
        as (e & runs' & w' & Hloop & Hf' & Hx' & Hterm);
        [apply lookup_insert_eq|done|done|done|done|].
      exists e, runs', w'. split; [done|]. rewrite Hf', Hx'. done.
    + eexists _, _, _. split; [reflexivity|]. split; [done|]. split; [done|].
      intros r'. rewrite lookup_insert_eq. by intros [= <-].
    + eexists _, _, _. split; [reflexivity|]. split; [done|]. split; [done|].
      intros r'. rewrite lookup_insert_eq. by intros [= <-].
Qed.

(** The main program (lines 247-278) saves nothing without approval.  If
    no line the user types makes the router choose the terminal step, the
    program ends with an exception (the end of the input at the latest), no
    file has been written, the export has not been called and the run is not
    terminated. *)
Theorem nothing_saved_without_approval C inputs :
  none_approves inputs = true ->
  exists e runs w,
    main C inputs = (Raise e, runs, w) /\
    files w = ∅ /\ count_exports (trace w) = 0 /\
    (forall r, runs !! thread_id = Some r -> status r <> TERMINATED).
Proof.
  intros Hall. unfold main, start. rewrite lookup_empty.
  destruct (drive C recursion_limit entry_point None
              {[ "spec_text" := initial_spec ]} 0 empty_world)
    as [[[h s'] c'] w1] eqn:Hd.
  pose proof Hd as Hd'.
  apply drive_quiet in Hd' as (Hf & Hx & Hh); [|done|discriminate].
  destruct h as [n'| |n' e|]; cbn [settle]; [|done| |].
  - apply drive_suspended in Hd as (-> & _ & _).
    destruct (resume_loop_quiet C inputs
                (<[thread_id := mkRun s' PAUSED (Some human_review) c']> ∅)
                w1 (mkRun s' PAUSED (Some human_review) c') human_review)
      as (e & runs' & w' & Hloop & Hf' & Hx' & Hterm);
      [apply lookup_insert_eq|done|done|done|done|].
    exists e, runs', w'. split; [done|]. by rewrite Hf', Hx', Hf, Hx.
  - eexists _, _, _. split; [reflexivity|]. split; [done|]. split; [done|].
    intros r'. rewrite lookup_insert_eq. by intros [= <-].
  - eexists _, _, _. split; [reflexivity|]. split; [done|]. split; [done|].
    intros r'. rewrite lookup_insert_eq. by intros [= <-].
Qed.

(** ** From the first draft to approval *)

Lemma export_try_trace C t out w r w' :
  export_try C t out w = (r, w') ->
  trace w' = trace w \/ trace w' = trace w ++ [EvOpen out].
Proof.
  intros H.
  destruct (clean t) as [c|e] eqn:Hc.
  2:{ rewrite (export_try_clean_raises _ _ _ _ _ Hc) in H.
      injection H as <- <-. by left. }
  destruct (json_loads C c) as [tickets|e] eqn:Hl.
  2:{ rewrite (export_try_loads_raises _ _ _ _ _ _ Hc Hl) in H.
      injection H as <- <-. by left. }
  rewrite (export_try_loaded _ _ _ _ _ _ Hc Hl) in H. right.
  destruct (py_iter tickets) as [items|e].
  - destruct (write_tickets out items (opened out w)) as [[[]|e] w2] eqn:Hw;
      injection H as <- <-; by apply write_tickets_frame in Hw as [-> _].
  - by injection H as <- <-.
Qed.

Lemma export_no_invoke C m t out w r w' :
  export_to_ado_csv C t out w = (r, w') ->
  count_invokes m (trace w') = count_invokes m (trace w).
Proof.
  rewrite export_entered. unfold try_except.
  destruct (export_try C t out _) as [[o|e] w2] eqn:Htry;
    apply export_try_trace in Htry; cbn [trace] in Htry.
  - intros [= <- <-].
    destruct Htry as [-> | ->]; rewrite !count_invokes_app; simpl; lia.
  - assert (Hex : export_except t e w2 = (r, w') ->
                  trace w' = trace w2 \/
                  trace w' = trace w2 ++ [EvOpen fallback_file]).
    { destruct e; cbn [export_except]; unfold bind, write_text, ret;
        intros [= <- <-]; try (by left).
      by right. }
    intros Hr. specialize (Hex Hr).
    destruct Hex as [-> | ->], Htry as [-> | ->];
      rewrite !count_invokes_app; simpl; lia.
Qed.

(** With models that answer, one pass from the analysis step calls each
    model once and ends suspended at the review step, with a draft. *)
Lemma coop_cycle C k s spec count w :
  cooperative C -> s !! "spec_text" = Some spec ->
  exists s2 w2 p1 p2,
    drive C (S (S (S k))) analyze_spec None s count w
      = (Suspended human_review, s2, S (S count), w2) /\
    files w2 = files w /\
    trace w2 = trace w ++ [EvInvoke Gemini p1; EvInvoke Azure p2] /\
    s2 !! "spec_text" = Some spec /\ is_Some (s2 !! "ado_tickets").
Proof.
  intros [Hg Ha] Hspec.
  destruct (Hg (trace w) (analysis_prompt s spec)) as [a Hga].
  assert (Hrun1 : run_node C analyze_spec None s w =
            (Ok {[ "analysis_gaps" := a ]},
             World (files w)
                   (trace w ++ [EvInvoke Gemini (analysis_prompt s spec)]))).
  { cbn [run_node].
    unfold analyze_requirements_node, getitem, bind, lift, invoke, ret.
    rewrite Hspec. cbn [trace files]. by rewrite Hga. }
  rewrite (drive_step_ok _ _ _ _ _ _ _ _ _ Hrun1). cbn [successor].
  set (s1 := merge s {[ "analysis_gaps" := a ]}).
  set (w1 := World (files w)
                   (trace w ++ [EvInvoke Gemini (analysis_prompt s spec)])).
  assert (Hs1a : s1 !! "analysis_gaps" = Some a).
  { unfold s1, merge. apply lookup_union_Some_l, lookup_singleton_eq. }
  assert (Hs1s : s1 !! "spec_text" = Some spec).
  { unfold s1, merge. rewrite lookup_union_r; [done|].
    by apply lookup_singleton_ne. }
  destruct (Ha (trace w1) (drafting_prompt spec a)) as [d Had].
  assert (Hrun2 : run_node C create_tickets None s1 w1 =
            (Ok {[ "ado_tickets" := d ]},
             World (files w1)
                   (trace w1 ++ [EvInvoke Azure (drafting_prompt spec a)]))).
  { cbn [run_node].
    unfold draft_tickets_node, getitem, bind, lift, invoke, ret.
    rewrite Hs1a. cbn beta iota. rewrite Hs1s. cbn beta iota. by rewrite Had. }
  rewrite (drive_step_ok _ _ _ _ _ _ _ _ _ Hrun2). cbn [successor].
  set (s2 := merge s1 {[ "ado_tickets" := d ]}).
  set (w2 := World (files w1)
                   (trace w1 ++ [EvInvoke Azure (drafting_prompt spec a)])).
  assert (Hs2d : s2 !! "ado_tickets" = Some d).
  { unfold s2, merge. apply lookup_union_Some_l, lookup_singleton_eq. }
  assert (Hs2s : s2 !! "spec_text" = Some spec).
  { unfold s2, merge. rewrite lookup_union_r; [done|].
    by apply lookup_singleton_ne. }
  assert (Hrun3 : run_node C human_review None s2 w2 =
            (Raise (GraphInterrupt review_prompt), w2)).
  { cbn [run_node]. unfold human_review_node, getitem, bind, lift, interrupt.
    by rewrite Hs2d. }
  rewrite (drive_step_raise _ _ _ _ _ _ _ _ _ Hrun3).
  exists s2, w2, (analysis_prompt s spec), (drafting_prompt spec a).
  split; [done|]. split; [done|]. split.
  - unfold w2, w1. cbn [trace]. by rewrite <- app_assoc.
  - split; [done|]. by exists d.
Qed.

Lemma resume_rejecting C value runs w k :
  cooperative C -> awaiting_review runs w k -> approves value = false ->
  exists s' runs' w',
    resume C thread_id value runs w = (Reply s' PAUSED, runs', w') /\
    awaiting_review runs' w' (S k).
Proof.
  intros Hcoop ((r & Hr & Hst & Hp & Hado & [spec Hspec]) & Hf & Hx & Hg & Ha) Hv.
  rewrite (resume_paused _ _ _ _ _ _ _ Hr Hst Hp). unfold recursion_limit.
  rewrite (drive_step_ok C _ human_review _ _ _ _ _ w
             (review_resumed value _ w Hado)).
  fold (reviewed (run_state r) value). cbn [successor].
  rewrite router_reviewed. fold (approves value). rewrite Hv.
  assert (Hspec' : reviewed (run_state r) value !! "spec_text" = Some spec)
    by (by rewrite reviewed_other).
  destruct (coop_cycle C 21 _ spec (S (step_counter r)) w Hcoop Hspec')
    as (s2 & w2 & p1 & p2 & -> & Hf2 & Htr2 & Hs2 & Hd2).
  cbn [settle]. eexists _, _, _. split; [reflexivity|].
  split; [|split; [congruence|]].
  - eexists. split; [apply lookup_insert_eq|]. cbn. eauto 6.
  - rewrite Htr2, count_exports_app, !count_invokes_app, Hx, Hg, Ha.
    simpl. repeat split; lia.
Qed.

Lemma resume_approving C value runs w k :
  awaiting_review runs w k -> approves value = true ->
  exists s' runs' w' r',
    resume C thread_id value runs w = (Reply s' TERMINATED, runs', w') /\
    runs' !! thread_id = Some r' /\ status r' = TERMINATED /\
    count_exports (trace w') = 1 /\
    count_invokes Gemini (trace w') = k /\
    count_invokes Azure (trace w') = k /\
    is_Some (files w' !! json_filename).
Proof.
  intros ((r & Hr & Hst & Hp & [d Hado] & _) & Hf & Hx & Hg & Ha) Hv.
  rewrite (resume_paused _ _ _ _ _ _ _ Hr Hst Hp). unfold recursion_limit.
  rewrite (drive_step_ok C _ human_review _ _ _ _ _ w
             (review_resumed value _ w (ex_intro _ d Hado))).
  fold (reviewed (run_state r) value). cbn [successor].
  rewrite router_reviewed. fold (approves value). rewrite Hv.
  assert (Hado' : reviewed (run_state r) value !! "ado_tickets" = Some d)
    by (by rewrite reviewed_other).
  destruct (save_runs C _ d w Hado') as (csv & w' & He & Hs).
  rewrite (drive_step_ok C _ save_tickets _ _ _ _ _ _ Hs).
  cbn [successor settle].
  pose proof (export_no_invoke C Gemini _ _ _ _ _ He) as HeG.
  pose proof (export_no_invoke C Azure _ _ _ _ _ He) as HeA.
  apply export_frame in He as [(evs & Htr & Hn) Hfr].
  eexists _, _, w', _. split; [reflexivity|].
  split; [apply lookup_insert_eq|]. split; [done|].
  cbn [json_written trace] in *. split.
  - rewrite Htr, !count_exports_app, Hx. simpl. lia.
  - rewrite HeG, HeA, !count_invokes_app, Hg, Ha. simpl.
    split; [lia|]. split; [lia|].
    rewrite Hfr by done. unfold json_written. cbn [files].
    rewrite lookup_insert_eq. by eexists.
Qed.

Lemma resume_loop_finished C rest runs w r :
  runs !! thread_id = Some r -> status r = TERMINATED ->
  resume_loop C rest runs w = (Ok tt, runs, w).
Proof.
  intros Hr Hst. destruct rest; cbn [resume_loop]; unfold snapshot_next;
    by rewrite Hr, Hst.
Qed.

Lemma resume_loop_approved C value rest :
  cooperative C -> approves value = true ->
  forall feedbacks runs w k,
    awaiting_review runs w k -> none_approves feedbacks = true ->
    exists runs' w' r',
      resume_loop C (feedbacks ++ value :: rest) runs w = (Ok tt, runs', w') /\
      runs' !! thread_id = Some r' /\ status r' = TERMINATED /\
      count_exports (trace w') = 1 /\
      count_invokes Gemini (trace w') = k + length feedbacks /\
      count_invokes Azure (trace w') = k + length feedbacks /\
      is_Some (files w' !! json_filename).
Proof.
  intros Hcoop Hv. induction feedbacks as [|v vs IH]; intros runs w k Hinv Hall.
  - pose proof Hinv as ((r & Hr & Hst & Hp & _) & _).
    cbn [app resume_loop]. unfold snapshot_next. rewrite Hr, Hst, Hp.
    destruct (resume_approving C value runs w k Hinv Hv)
      as (s' & runs' & w' & r' & -> & Hr' & Hst' & Hx & Hg & Ha & Hj).
    rewrite (resume_loop_finished _ _ _ _ _ Hr' Hst').
    exists runs', w', r'. rewrite Nat.add_0_r. done.
  - cbn [none_approves forallb] in Hall.
    apply andb_true_iff in Hall as [Hrej Hrest]. apply negb_true_iff in Hrej.
    pose proof Hinv as ((r & Hr & Hst & Hp & _) & _).
    change ((v :: vs) ++ value :: rest) with (v :: (vs ++ value :: rest)).
    cbn [resume_loop]. unfold snapshot_next. rewrite Hr, Hst, Hp.
    destruct (resume_rejecting C v runs w k Hcoop Hinv Hrej)
      as (s' & runs' & w' & -> & Hinv').
    destruct (IH runs' w' (S k) Hinv' Hrest)
      as (runs2 & w2 & r2 & -> & Hr2 & Hst2 & Hx & Hg & Ha & Hj).
    exists runs2, w2, r2. cbn [length]. rewrite <- !Nat.add_succ_comm. done.
Qed.

(** The main program (lines 247-278), with models that answer.  If the
    user rejects some drafts and then types a value that equals "approve" up
    to case, the program ends normally with the run terminated, whatever is
    typed after that is not read, the export has been called exactly once,
    the JSON file exists, and each model has been called once for the first
    draft and once more for every rejection. *)
Theorem main_runs_until_approval C feedbacks value rest :
  cooperative C -> none_approves feedbacks = true -> approves value = true ->
  exists runs w r,
    main C (feedbacks ++ value :: rest) = (Ok tt, runs, w) /\
    runs !! thread_id = Some r /\ status r = TERMINATED /\
    count_exports (trace w) = 1 /\
    count_invokes Gemini (trace w) = S (length feedbacks) /\
    count_invokes Azure (trace w) = S (length feedbacks) /\
    is_Some (files w !! json_filename).
Proof.
  intros Hcoop Hall Hv. unfold main, start. rewrite lookup_empty.
  unfold recursion_limit, entry_point.
  destruct (coop_cycle C 22 {[ "spec_text" := initial_spec ]} initial_spec 0
              empty_world Hcoop (lookup_singleton_eq _ _))
    as (s2 & w2 & p1 & p2 & -> & Hf2 & Htr2 & Hs2 & Hd2).
  cbn [settle].
  apply (resume_loop_approved C value rest Hcoop Hv feedbacks _ w2 1);
    [|done].
  split; [|split; [done|rewrite Htr2; by cbn]].
  eexists. split; [apply lookup_insert_eq|]. cbn. eauto 6.
Qed.

Lemma resume_loop_rejected C :
  cooperative C ->
  forall inputs runs w k,
    awaiting_review runs w k -> none_approves inputs = true ->
    exists runs' w',
      resume_loop C inputs runs w = (Raise EOFError, runs', w') /\
      awaiting_review runs' w' (k + length inputs).
Proof.
  intros Hcoop. induction inputs as [|v vs IH]; intros runs w k Hinv Hall.
  - pose proof Hinv as ((r & Hr & Hst & Hp & _) & _).
    cbn [resume_loop]. unfold snapshot_next. rewrite Hr, Hst, Hp.
    exists runs, w. by rewrite Nat.add_0_r.
  - cbn [none_approves forallb] in Hall.
    apply andb_true_iff in Hall as [Hrej Hrest]. apply negb_true_iff in Hrej.
    pose proof Hinv as ((r & Hr & Hst & Hp & _) & _).
    cbn [resume_loop]. unfold snapshot_next. rewrite Hr, Hst, Hp.
    destruct (resume_rejecting C v runs w k Hcoop Hinv Hrej)
      as (s' & runs' & w' & -> & Hinv').
    destruct (IH runs' w' (S k) Hinv' Hrest) as (runs2 & w2 & -> & Hinv2).
    exists runs2, w2. cbn [length]. by rewrite <- Nat.add_succ_comm.
Qed.

(** The main program (lines 247-278), with models that answer and a user
    who never approves.  Every line typed costs one more call of each model;
    when the input ends the program stops with [EOFError], the run still
    waits at the review step, and no file has been written. *)
Theorem main_runs_out_of_input C inputs :
  cooperative C -> none_approves inputs = true ->
  exists runs w r,
    main C inputs = (Raise EOFError, runs, w) /\
    runs !! thread_id = Some r /\ status r = PAUSED /\
    paused_step r = Some human_review /\
    files w = ∅ /\
    count_invokes Gemini (trace w) = S (length inputs) /\
    count_invokes Azure (trace w) = S (length inputs).
Proof.
  intros Hcoop Hall. unfold main, start. rewrite lookup_empty.
  unfold recursion_limit, entry_point.
  destruct (coop_cycle C 22 {[ "spec_text" := initial_spec ]} initial_spec 0
              empty_world Hcoop (lookup_singleton_eq _ _))
    as (s2 & w2 & p1 & p2 & -> & Hf2 & Htr2 & Hs2 & Hd2).
  cbn [settle].
  destruct (resume_loop_rejected C Hcoop inputs
              (<[thread_id := mkRun s2 PAUSED (Some human_review) 2]> ∅) w2 1)
    as (runs' & w' & -> & (r & Hr & Hst & Hp & _) & Hf & _ & Hg & Ha);
    [|done|].
  - split; [|split; [done|rewrite Htr2; by cbn]].
    eexists. split; [apply lookup_insert_eq|]. cbn. eauto 6.
  - exists runs', w', r. done.
Qed.

(** ** The clean-up of the drafted text *)

Lemma app_cons c a b : String c a +:+ b = String c (a +:+ b).
Proof. reflexivity. Qed.

Lemma rev_app a : forall b, PyStr.rev (a +:+ b) = PyStr.rev b +:+ PyStr.rev a.
Proof.
  induction a as [|c a IH]; intros b.
  - change (EmptyString +:+ b) with b.
    change (PyStr.rev EmptyString) with EmptyString.
    by rewrite str_app_nil_r.
  - rewrite app_cons, !rev_cons, IH. apply str_app_assoc.
Qed.

Lemma rev_involutive s : PyStr.rev (PyStr.rev s) = s.
Proof.
  induction s as [|c s IH]; [reflexivity|].
  rewrite rev_cons, rev_app, IH. reflexivity.
Qed.

Lemma startswith_app_l a : forall s b,
  PyStr.startswith s (a +:+ b) = true -> PyStr.startswith s a = true.
Proof.
  induction a as [|c a IH]; intros s b H; [by destruct s|].
  rewrite app_cons in H. destruct s as [|x s]; [discriminate|].
  cbn [PyStr.startswith] in *.
  destruct (Ascii.eqb c x); [by eapply IH|discriminate].
Qed.

Lemma drop_app a : forall b, PyStr.drop (String.length a) (a +:+ b) = b.
Proof.
  induction a as [|c a IH]; intros b; [reflexivity|].
  rewrite app_cons. cbn [String.length PyStr.drop]. apply IH.
Qed.

(** *** Stripping *)

Lemma lstrip_no_lead_space s : no_lead_space (PyStr.lstrip s) = true.
Proof.
  induction s as [|c s IH]; [done|]. cbn [PyStr.lstrip].
  destruct (PyStr.is_space c) eqn:E; [done|]. cbn [no_lead_space]. by rewrite E.
Qed.

Lemma lstrip_fixed s : no_lead_space s = true -> PyStr.lstrip s = s.
Proof.
  destruct s as [|c s]; [done|]. cbn [no_lead_space PyStr.lstrip].
  by destruct (PyStr.is_space c).
Qed.

(** What [lstrip] removes is a prefix. *)
Lemma lstrip_suffix s : exists sp, s = sp +:+ PyStr.lstrip s.
Proof.
  induction s as [|c s [sp IH]]; [by exists EmptyString|].
  cbn [PyStr.lstrip]. destruct (PyStr.is_space c).
  - exists (String c sp). rewrite app_cons. by rewrite <- IH.
  - by exists EmptyString.
Qed.

Lemma rstrip_prefix s : exists sp, s = PyStr.rstrip s +:+ sp.
Proof.
  unfold PyStr.rstrip. destruct (lstrip_suffix (PyStr.rev s)) as [sp H].
  exists (PyStr.rev sp).
  rewrite <- rev_app, <- H. by rewrite rev_involutive.
Qed.

Lemma rstrip_no_trail_space s :
  no_lead_space (PyStr.rev (PyStr.rstrip s)) = true.
Proof.
  unfold PyStr.rstrip. rewrite rev_involutive. apply lstrip_no_lead_space.
Qed.

Lemma rstrip_keeps_lead s :
  no_lead_space s = true -> no_lead_space (PyStr.rstrip s) = true.
Proof.
  intros H. destruct (rstrip_prefix s) as [sp E].
  destruct (PyStr.rstrip s) as [|c y]; [done|].
  rewrite E in H. by rewrite app_cons in H.
Qed.

(** A stripped text begins and ends with no white space, and a text that
    begins and ends with none is left alone. *)
Lemma strip_no_space s :
  no_lead_space (PyStr.strip s) = true /\
  no_lead_space (PyStr.rev (PyStr.strip s)) = true.
Proof.
  unfold PyStr.strip. split.
  - apply rstrip_keeps_lead, lstrip_no_lead_space.
  - apply rstrip_no_trail_space.
Qed.

Lemma strip_fixed s :
  no_lead_space s = true -> no_lead_space (PyStr.rev s) = true ->
  PyStr.strip s = s.
Proof.
  intros H1 H2. unfold PyStr.strip, PyStr.rstrip.
  rewrite (lstrip_fixed s H1), (lstrip_fixed _ H2). apply rev_involutive.
Qed.

Lemma strip_idempotent s : PyStr.strip (PyStr.strip s) = PyStr.strip s.
Proof. destruct (strip_no_space s). by apply strip_fixed. Qed.

(** *** Splitting *)

Lemma split_go_skip pre : forall sep cur s,
  PyStr.split_go sep (String.length pre) cur (pre +:+ s)
  = PyStr.split_go sep 0 cur s.
Proof.
  induction pre as [|c pre IH]; intros sep cur s; [reflexivity|].
  rewrite app_cons. cbn [String.length PyStr.split_go]. apply IH.
Qed.

Lemma split_go_match_head c sep' cur s :
  PyStr.split_go (String c sep') 0 cur (String c sep' +:+ s)
  = PyStr.rev cur :: PyStr.split_go (String c sep') 0 EmptyString s.
Proof.
  pose proof (startswith_app (String c sep') s) as H.
  rewrite app_cons in H |- *. cbn [PyStr.split_go]. rewrite H.
  cbn [String.length]. rewrite Nat.sub_1_r. cbn [Nat.pred].
  by rewrite split_go_skip.
Qed.

Lemma split_go_no_occurrence sep s : forall cur,
  occurs sep s = false ->
  PyStr.split_go sep 0 cur s = [PyStr.rev cur +:+ s].
Proof.
  induction s as [|c s IH]; intros cur H.
  - cbn [PyStr.split_go]. by rewrite str_app_nil_r.
  - cbn [occurs] in H. apply orb_false_iff in H as [Hs Ho].
    cbn [PyStr.split_go]. rewrite Hs, (IH _ Ho), rev_cons, str_app_assoc.
    reflexivity.
Qed.

Lemma tick_free_not_startswith s sep' :
  no_tick s = true -> PyStr.startswith s (String backtick sep') = false.
Proof.
  destruct s as [|c s]; [done|]. cbn [no_tick PyStr.startswith].
  intros H. apply andb_true_iff in H as [H _]. apply negb_true_iff in H.
  by rewrite H.
Qed.

Lemma no_tick_app a : forall b, no_tick (a +:+ b) = no_tick a && no_tick b.
Proof.
  induction a as [|c a IH]; intros b; [reflexivity|].
  rewrite app_cons. cbn [no_tick]. by rewrite IH, andb_assoc.
Qed.

Lemma no_tick_rev s : no_tick (PyStr.rev s) = no_tick s.
Proof.
  induction s as [|c s IH]; [reflexivity|].
  rewrite rev_cons, no_tick_app, IH. cbn [no_tick].
  rewrite andb_true_r. apply andb_comm.
Qed.

Lemma occurs_tick_free_prefix sep' body : forall rest,
  no_tick body = true ->
  occurs (String backtick sep') (body +:+ rest)
  = occurs (String backtick sep') rest.
Proof.
  induction body as [|c body IH]; intros rest H; [reflexivity|].
  rewrite app_cons. cbn [occurs]. cbn [no_tick] in H. apply andb_true_iff in H as [Hc Hb].
  rewrite IH by done.
  destruct (PyStr.startswith (String c (body +:+ rest)) (String backtick sep'))
    eqn:E; [|done].
  cbn [PyStr.startswith] in E. apply negb_true_iff in Hc. by rewrite Hc in E.
Qed.

Lemma split_go_tick_free_prefix sep' body : forall cur rest,
  no_tick body = true ->
  PyStr.split_go (String backtick sep') 0 cur (body +:+ rest)
  = PyStr.split_go (String backtick sep') 0 (PyStr.rev_acc body cur) rest.
Proof.
  induction body as [|c body IH]; intros cur rest H; [reflexivity|].
  rewrite app_cons. cbn [no_tick] in H. apply andb_true_iff in H as [Hc Hb].
  apply negb_true_iff in Hc.
  cbn [PyStr.split_go PyStr.startswith PyStr.rev_acc]. rewrite Hc.
  by apply IH.
Qed.

Lemma after_first_head c sep' x :
  PyStr.after_first (String c sep' +:+ x) (String c sep') = Some x.
Proof.
  pose proof (startswith_app (String c sep') x) as H.
  pose proof (drop_app (String c sep') x) as Hd.
  rewrite app_cons in H, Hd |- *. cbn [PyStr.after_first]. by rewrite H, Hd.
Qed.

(** The text between the fences, when the text is a fenced block. *)
Lemma split_fenced body :
  no_tick body = true ->
  PyStr.split (fence_json +:+ body +:+ fence) fence_json
  = [EmptyString; body +:+ fence].
Proof.
  intros H. unfold PyStr.split.
  change fence_json with (String backtick "``json").
  rewrite split_go_match_head.
  rewrite split_go_no_occurrence; [reflexivity|].
  by rewrite occurs_tick_free_prefix.
Qed.

Lemma split_fenced_plain body :
  no_tick body = true ->
  PyStr.split (fence +:+ body +:+ fence) fence
  = [EmptyString; body; EmptyString].
Proof.
  intros H. unfold PyStr.split.
  change fence with (String backtick "``").
  rewrite split_go_match_head, split_go_tick_free_prefix by done.
  change (String backtick "``") with (String backtick "``" +:+ EmptyString) at 2.
  rewrite split_go_match_head.
  fold (PyStr.rev body). by rewrite rev_involutive.
Qed.

Lemma endswith_fence body : PyStr.endswith (body +:+ fence) fence = true.
Proof. unfold PyStr.endswith. rewrite rev_app. apply startswith_app. Qed.

Lemma rsplit_fence body : PyStr.rsplit1_head (body +:+ fence) fence = body.
Proof.
  unfold PyStr.rsplit1_head. rewrite rev_app.
  change (PyStr.rev fence) with (String backtick "``").
  by rewrite after_first_head, rev_involutive.
Qed.

Lemma tick_free_not_endswith body :
  no_tick body = true -> PyStr.endswith body fence = false.
Proof.
  intros H. unfold PyStr.endswith.
  change (PyStr.rev fence) with (String backtick "``").
  apply tick_free_not_startswith. by rewrite no_tick_rev.
Qed.

Lemma clean_of_fenced_json t body :
  PyStr.strip t = fence_json +:+ body +:+ fence -> no_tick body = true ->
  clean t = Ok (PyStr.strip body).
Proof.
  intros Ht Hb. unfold clean. rewrite Ht.
  pose proof (startswith_app fence_json (body +:+ fence)) as H1.
  rewrite H1, (split_fenced body Hb). cbn [index nth_error].
  destruct body as [|c body]; [reflexivity|].
  assert (Hs : PyStr.startswith (String c body +:+ fence) fence = false).
  { cbn [no_tick] in Hb. apply andb_true_iff in Hb as [Hc _].
    apply negb_true_iff in Hc. rewrite app_cons.
    change fence with (String backtick "``"). cbn [PyStr.startswith].
    by rewrite Hc. }
  by rewrite Hs, endswith_fence, rsplit_fence.
Qed.

Lemma startswith_app_same a : forall x b,
  PyStr.startswith (a +:+ x) (a +:+ b) = PyStr.startswith x b.
Proof.
  induction a as [|c a IH]; intros x b; [reflexivity|].
  rewrite !app_cons. cbn [PyStr.startswith]. by rewrite Ascii.eqb_refl.
Qed.

Lemma startswith_json_app body :
  PyStr.startswith body "json" = false ->
  PyStr.startswith (body +:+ fence) "json" = false.
Proof.
  destruct body as [|a [|b [|c [|d r]]]]; intros H;
    rewrite ?app_cons; change (EmptyString +:+ fence) with fence;
    unfold fence; cbn [PyStr.startswith] in *;
    repeat match goal with
           | |- context [Ascii.eqb ?x ?y] =>
               is_var y; destruct (Ascii.eqb x y)
           end; try done.
  destruct r; discriminate.
Qed.

Lemma clean_of_fenced_plain t body :
  PyStr.strip t = fence +:+ body +:+ fence -> no_tick body = true ->
  PyStr.startswith body "json" = false ->
  clean t = Ok (PyStr.strip body).
Proof.
  intros Ht Hb Hj. unfold clean. rewrite Ht.
  assert (H0 : PyStr.startswith (fence +:+ body +:+ fence) fence_json = false).
  { change fence_json with (fence +:+ "json").
    rewrite startswith_app_same. by apply startswith_json_app. }
  pose proof (startswith_app fence (body +:+ fence)) as H1.
  rewrite H0, H1, (split_fenced_plain body Hb). cbn [index nth_error].
  by rewrite (tick_free_not_endswith body Hb).
Qed.

Lemma clean_ok_stripped t c : clean t = Ok c -> exists x, c = PyStr.strip x.
Proof.
  unfold clean.
  destruct (if PyStr.startswith (PyStr.strip t) fence_json then _ else _)
    as [c1|e]; [|discriminate].
  destruct (if PyStr.startswith c1 fence then _ else _) as [c2|e];
    [|discriminate].
  intros [= <-]. eauto.
Qed.

(** The clean-up (lines 128-135) never raises: the two indexings are
    guarded by the tests before them.  Its result begins and ends with no
    white space, so stripping it again changes nothing. *)
Theorem clean_returns_stripped t :
  exists c, clean t = Ok c /\ PyStr.strip c = c /\
            no_lead_space c = true /\ no_lead_space (PyStr.rev c) = true.
Proof.
  destruct (clean_total t) as [c Hc]. exists c. split; [done|].
  destruct (clean_ok_stripped t c Hc) as [x ->].
  split; [apply strip_idempotent|apply strip_no_space].
Qed.

(** A text that, once stripped, neither begins nor ends with a fence is
    only stripped. *)
Theorem clean_unfenced t :
  PyStr.startswith (PyStr.strip t) fence = false ->
  PyStr.endswith (PyStr.strip t) fence = false ->
  clean t = Ok (PyStr.strip t).
Proof.
  intros Hs He. unfold clean.
  assert (Hj : PyStr.startswith (PyStr.strip t) fence_json = false).
  { destruct (PyStr.startswith (PyStr.strip t) fence_json) eqn:E; [|done].
    change fence_json with (fence +:+ "json") in E.
    apply startswith_app_l in E. congruence. }
  by rewrite Hj, Hs, He, strip_idempotent.
Qed.

(** A fenced block is unwrapped.  If the text, once stripped, is a body
    without backticks between "```json" and "```", or between "```" and
    "```" with a body that does not begin with "json", the clean-up returns
    the body, stripped. *)
Theorem clean_unwraps_fence t body :
  no_tick body = true ->
  PyStr.strip t = fence_json +:+ body +:+ fence \/
  (PyStr.strip t = fence +:+ body +:+ fence /\
   PyStr.startswith body "json" = false) ->
  clean t = Ok (PyStr.strip body).
Proof.
  intros Hb [Ht|[Ht Hj]].
  - by apply clean_of_fenced_json.
  - by apply clean_of_fenced_plain.
Qed.

(** ** What the JSON file holds *)

Lemma occurs_longer a b s : occurs (a +:+ b) s = true -> occurs a s = true.
Proof.
  induction s as [|c s IH]; cbn [occurs]; intros H;
    apply orb_true_iff in H as [H|H].
  - apply startswith_app_l in H. by rewrite H.
  - discriminate.
  - apply startswith_app_l in H. by rewrite H.
  - rewrite (IH H). apply orb_true_r.
Qed.

Lemma replace_absent s old :
  occurs old s = false -> PyStr.replace s old EmptyString = s.
Proof.
  intros H. unfold PyStr.replace, PyStr.split.
  by rewrite split_go_no_occurrence.
Qed.

Lemma fences_removed_absent drafted :
  occurs fence drafted = false -> fences_removed drafted = drafted.
Proof.
  intros H. unfold fences_removed.
  assert (Hj : occurs "```json" drafted = false).
  { destruct (occurs "```json" drafted) eqn:E; [|done].
    apply (occurs_longer fence "json") in E. congruence. }
  rewrite (replace_absent _ _ Hj). by apply replace_absent.
Qed.

Lemma fences_removed_fenced body :
  no_tick body = true ->
  fences_removed (fence_json +:+ body +:+ fence) = body.
Proof.
  intros Hb. unfold fences_removed, PyStr.replace at 2.
  fold fence_json. rewrite (split_fenced body Hb).
  change (PyStr.join EmptyString [EmptyString; body +:+ fence])
    with (body +:+ fence).
  unfold PyStr.replace, PyStr.split. fold fence.
  change (PyStr.split_go fence 0 EmptyString (body +:+ fence))
    with (PyStr.split_go (String backtick "``") 0 EmptyString
            (body +:+ (String backtick "``" +:+ EmptyString))).
  rewrite split_go_tick_free_prefix by done.
  rewrite split_go_match_head. fold (PyStr.rev body).
  rewrite rev_involutive.
  change (PyStr.join EmptyString [body; EmptyString])
    with (body +:+ EmptyString).
  apply str_app_nil_r.
Qed.

Lemma save_json_content C s drafted w :
  s !! "ado_tickets" = Some drafted ->
  exists w', save_to_file_node C s w = (Ok ∅, w') /\
             files w' !! json_filename = Some (TextFile (fences_removed drafted)).
Proof.
  intros H. destruct (save_runs C s drafted w H) as (csv & w' & He & Hs).
  exists w'. split; [done|]. apply export_frame in He as [_ Hfr].
  rewrite Hfr by done. apply lookup_insert_eq.
Qed.

(** A draft without a fence is written to the JSON file as it is. *)
Theorem json_file_verbatim C s drafted w :
  s !! "ado_tickets" = Some drafted -> occurs fence drafted = false ->
  exists w', save_to_file_node C s w = (Ok ∅, w') /\
             files w' !! json_filename = Some (TextFile drafted).
Proof.
  intros H Hf. destruct (save_json_content C s drafted w H) as (w' & Hs & Hj).
  exists w'. split; [done|]. by rewrite (fences_removed_absent _ Hf) in Hj.
Qed.

(** A draft that is a fenced block, "```json", a body without backticks,
    "```", reaches both artifacts unwrapped: the JSON file holds the body
    as it is, and the export decodes the body, stripped. *)
Theorem fenced_draft_unwrapped C s body w :
  no_tick body = true ->
  s !! "ado_tickets" = Some (fence_json +:+ body +:+ fence) ->
  clean (fence_json +:+ body +:+ fence) = Ok (PyStr.strip body) /\
  exists w', save_to_file_node C s w = (Ok ∅, w') /\
             files w' !! json_filename = Some (TextFile body).
Proof.
  intros Hb H. split.
  - apply clean_of_fenced_json; [|done]. apply strip_fixed; [done|].
    rewrite !rev_app. reflexivity.
  - destruct (save_json_content C s _ w H) as (w' & Hs & Hj).
    exists w'. split; [done|]. by rewrite (fences_removed_fenced _ Hb) in Hj.
Qed.

(** ** The further properties at concrete inputs *)

Lemma ref_cooperative : cooperative ref_collaborators.
Proof. split; intros tr p; by eexists. Qed.

Lemma analyze_node_witness :
  exists r w',
    analyze_requirements_node ref_collaborators started_state empty_world
      = (r, w') /\
    files w' = files empty_world /\
    r = Ok {[ "analysis_gaps" := "No error states are described." ]}.
Proof.
  destruct (analyze_requirements_node ref_collaborators started_state
              empty_world) as [r w'] eqn:H.
  exists r, w'. split; [reflexivity|].
  destruct (analyze_node_behaviour _ _ _ _ _ H) as (Hf & _ & Hs).
  split; [exact Hf|]. exact (proj2 (proj2 (proj2 (Hs "X" eq_refl)))).
Defined.

Lemma draft_node_witness :
  exists r w',
    draft_tickets_node ref_collaborators started_state empty_world = (r, w') /\
    started_state !! "analysis_gaps" = None /\
    r = Raise (KeyError "analysis_gaps") /\ w' = empty_world.
Proof.
  destruct (draft_tickets_node ref_collaborators started_state empty_world)
    as [r w'] eqn:H.
  exists r, w'. split; [reflexivity|]. split; [reflexivity|].
  destruct (draft_node_behaviour _ _ _ _ _ H) as (_ & Hk & _).
  exact (Hk eq_refl).
Defined.

Lemma review_node_witness :
  exists r w',
    human_review_node (Some "approve") analysed_state empty_world = (r, w') /\
    analysed_state !! "ado_tickets" = None /\
    r = Raise (KeyError "ado_tickets") /\ w' = empty_world.
Proof.
  destruct (human_review_node (Some "approve") analysed_state empty_world)
    as [r w'] eqn:H.
  exists r, w'. split; [reflexivity|]. split; [reflexivity|].
  destruct (review_node_behaviour _ _ _ _ _ H) as (Hw & Hk & _).
  split; [exact (Hk eq_refl)|exact Hw].
Defined.

Lemma save_node_witness :
  exists r w',
    save_to_file_node ref_collaborators paused_state empty_world = (r, w') /\
    paused_state !! "ado_tickets" = Some three_tickets /\
    r = Ok ∅ /\ files w' !! "notes.txt" = None.
Proof.
  destruct (save_to_file_node ref_collaborators paused_state empty_world)
    as [r w'] eqn:H.
  exists r, w'. split; [reflexivity|]. split; [reflexivity|].
  destruct (save_node_behaviour _ _ _ _ _ H) as (_ & Hd & Hfr).
  split; [exact (proj1 (Hd three_tickets eq_refl))|].
  rewrite Hfr; [reflexivity|]. intros [E|[E|E]]; discriminate E.
Defined.

Lemma export_list_rows_witness :
  clean mixed_tickets = Ok mixed_tickets /\
  json_loads ref_collaborators mixed_tickets = Ok (JArray mixed_items) /\
  export_to_ado_csv ref_collaborators mixed_tickets default_output_file
    empty_world
  = (Ok None,
     exported mixed_tickets default_output_file
       (map cells_of (firstn 2 mixed_items)) empty_world).
Proof.
  assert (H1 : clean mixed_tickets = Ok mixed_tickets)
    by (vm_compute; reflexivity).
  assert (H2 : json_loads ref_collaborators mixed_tickets
               = Ok (JArray mixed_items)) by (vm_compute; reflexivity).
  split; [exact H1|]. split; [exact H2|].
  exact (proj1 (export_list_rows ref_collaborators mixed_tickets mixed_tickets
                  mixed_items default_output_file empty_world H1 H2)).
Defined.

Lemma export_not_a_list_witness :
  clean "{}" = Ok "{}" /\
  json_loads ref_collaborators "{}" = Ok (JObject []) /\
  not_a_list (JObject []) = true /\
  export_to_ado_csv ref_collaborators "{}" default_output_file empty_world
  = (Ok (Some default_output_file),
     exported "{}" default_output_file [] empty_world).
Proof.
  assert (H1 : clean "{}" = Ok "{}") by (vm_compute; reflexivity).
  assert (H2 : json_loads ref_collaborators "{}" = Ok (JObject []))
    by (vm_compute; reflexivity).
  split; [exact H1|]. split; [exact H2|]. split; [reflexivity|].
  exact (proj1 (export_not_a_list ref_collaborators "{}" "{}" (JObject [])
                  default_output_file empty_world H1 H2 eq_refl)).
Defined.

Lemma nothing_saved_witness :
  none_approves ["make it shorter"; "approved"] = true /\
  exists e runs w,
    main ref_collaborators ["make it shorter"; "approved"] = (Raise e, runs, w) /\
    files w = ∅ /\ count_exports (trace w) = 0.
Proof.
  assert (H : none_approves ["make it shorter"; "approved"] = true)
    by reflexivity.
  split; [exact H|].
  destruct (nothing_saved_without_approval ref_collaborators _ H)
    as (e & runs & w & Hm & Hf & Hx & _).
  exists e, runs, w. split; [exact Hm|]. split; [exact Hf|exact Hx].
Defined.

Lemma main_runs_until_approval_witness :
  cooperative ref_collaborators /\
  none_approves ["make it shorter"] = true /\ approves "APPROVE" = true /\
  exists runs w,
    main ref_collaborators (["make it shorter"] ++ "APPROVE" :: ["unread"])
      = (Ok tt, runs, w) /\
    count_exports (trace w) = 1 /\ count_invokes Gemini (trace w) = 2.
Proof.
  split; [exact ref_cooperative|]. split; [reflexivity|]. split; [reflexivity|].
  destruct (main_runs_until_approval ref_collaborators ["make it shorter"]
              "APPROVE" ["unread"] ref_cooperative eq_refl eq_refl)
    as (runs & w & r & Hm & _ & _ & Hx & Hg & _).
  exists runs, w. split; [exact Hm|]. split; [exact Hx|exact Hg].
Defined.

Lemma main_runs_out_of_input_witness :
  cooperative ref_collaborators /\
  none_approves ["make it shorter"; "still too long"] = true /\
  exists runs w,
    main ref_collaborators ["make it shorter"; "still too long"]
      = (Raise EOFError, runs, w) /\
    files w = ∅ /\ count_invokes Azure (trace w) = 3.
Proof.
  split; [exact ref_cooperative|]. split; [reflexivity|].
  destruct (main_runs_out_of_input ref_collaborators
              ["make it shorter"; "still too long"] ref_cooperative eq_refl)
    as (runs & w & r & Hm & _ & _ & _ & Hf & _ & Ha).
  exists runs, w. split; [exact Hm|]. split; [exact Hf|exact Ha].
Defined.

Lemma clean_unfenced_witness :
  PyStr.startswith (PyStr.strip padded_text) fence = false /\
  PyStr.endswith (PyStr.strip padded_text) fence = false /\
  clean padded_text = Ok "[1, 2]".
Proof.
  assert (H1 : PyStr.startswith (PyStr.strip padded_text) fence = false)
    by (vm_compute; reflexivity).
  assert (H2 : PyStr.endswith (PyStr.strip padded_text) fence = false)
    by (vm_compute; reflexivity).
  split; [exact H1|]. split; [exact H2|].
  exact (clean_unfenced padded_text H1 H2).
Defined.

Lemma clean_unwraps_fence_witness :
  no_tick block_body = true /\
  PyStr.strip fenced_block = fence_json +:+ block_body +:+ fence /\
  clean fenced_block = Ok "[]".
Proof.
  assert (H1 : no_tick block_body = true) by (vm_compute; reflexivity).
  assert (H2 : PyStr.strip fenced_block = fence_json +:+ block_body +:+ fence)
    by (vm_compute; reflexivity).
  split; [exact H1|]. split; [exact H2|].
  exact (clean_unwraps_fence fenced_block block_body H1 (or_introl H2)).
Defined.

Lemma json_file_verbatim_witness :
  paused_state !! "ado_tickets" = Some three_tickets /\
  occurs fence three_tickets = false /\
  exists w',
    save_to_file_node ref_collaborators paused_state empty_world = (Ok ∅, w') /\
    files w' !! json_filename = Some (TextFile three_tickets).
Proof.
  assert (H1 : paused_state !! "ado_tickets" = Some three_tickets)
    by reflexivity.
  assert (H2 : occurs fence three_tickets = false) by (vm_compute; reflexivity).
  split; [exact H1|]. split; [exact H2|].
  exact (json_file_verbatim ref_collaborators paused_state three_tickets
           empty_world H1 H2).
Defined.

Lemma fenced_draft_unwrapped_witness :
  let s : gmap string string := {[ "ado_tickets" := fenced_block ]} in
  no_tick block_body = true /\
  s !! "ado_tickets" = Some (fence_json +:+ block_body +:+ fence) /\
  clean fenced_block = Ok "[]" /\
  exists w',
    save_to_file_node ref_collaborators s empty_world = (Ok ∅, w') /\
    files w' !! json_filename = Some (TextFile block_body).
Proof.
  intros s.
  assert (H1 : no_tick block_body = true) by (vm_compute; reflexivity).
  assert (H2 : s !! "ado_tickets" = Some (fence_json +:+ block_body +:+ fence))
    by reflexivity.
  split; [exact H1|]. split; [exact H2|].
  exact (fenced_draft_unwrapped ref_collaborators s block_body empty_world
           H1 H2).
Defined.

